(** * Infineon PDL flash driver (drivers/flash/flash_infineon_pdl.c)

    A shallow embedding of the driver's four entry points
    ([flash_ifx_write], [flash_ifx_read], [flash_ifx_erase],
    [flash_ifx_get_size]) and the proofs of its block I/O contract:
    bounds and alignment validation, the row-by-row programming loops,
    erase by overwriting with 0xFF, and the error codes.

    Integers are [Z] with the wrap-around of the C types written out.
    The driver targets a 32-bit SoC: [uint32_t], [size_t] and [uintptr_t]
    are 32-bit unsigned; [off_t] is signed and its width depends on the C
    library (32 bits with the minimal libc and newlib, 64 bits with
    picolibc), so it is a parameter of the model. *)

From Stdlib Require Import ZArith List Bool Lia.
From Stdlib.Strings Require Import Byte.
Import ListNotations.
Local Open Scope Z_scope.

(** ** Machine integers *)

Definition wrap32 (z : Z) : Z := z mod 2 ^ 32.

Definition u32 (z : Z) : Prop := 0 <= z < 2 ^ 32.

(** The two ABIs of [off_t]. *)
Inductive off_kind : Type := Off32 | Off64.

Definition off_bits (ot : off_kind) : Z :=
  match ot with Off32 => 32 | Off64 => 64 end.

Definition off_range (ot : off_kind) (z : Z) : Prop :=
  - 2 ^ (off_bits ot - 1) <= z < 2 ^ (off_bits ot - 1).

(** [offset % row_len] with [offset : off_t] and [row_len : uint32_t], for
    [row_len <> 0].  With a 32-bit [off_t] the usual arithmetic conversions
    turn [offset] into an unsigned 32-bit value; with a 64-bit [off_t] the
    operation is the signed, truncating remainder. *)
Definition off_rem (ot : off_kind) (offset row_len : Z) : Z :=
  match ot with
  | Off32 => wrap32 offset mod row_len
  | Off64 => Z.rem offset row_len
  end.

(** [u < offset] with [u : uint32_t] and [offset : off_t]: unsigned at 32
    bits, signed at 64 bits. *)
Definition u32_lt_off (ot : off_kind) (u offset : Z) : bool :=
  match ot with
  | Off32 => u <? wrap32 offset
  | Off64 => u <? offset
  end.

(** errno values (errno.h). *)
Definition EIO : Z := 5.
Definition EINVAL : Z := 22.

(** ** Data model *)

Record ifx_flash_config : Type := {
  base_addr : Z;
  max_addr : Z;
  write_block_size : Z;
  erase_block_size : Z
}.

Record flash_parameters_t : Type := {
  fp_write_block_size : Z;
  fp_erase_value : byte;
  fp_no_explicit_erase : bool
}.

(** [write_block_size] of the parameters and of the configuration are the
    same devicetree property. *)
Definition flash_parameters (cfg : ifx_flash_config) : flash_parameters_t :=
  {| fp_write_block_size := write_block_size cfg;
     fp_erase_value := xff;
     fp_no_explicit_erase := true |}.

(** The region as the build produces it: 32-bit addresses and
    [BUILD_ASSERT(IFX_FLASH_MAX > IFX_FLASH_BASE)]. *)
Definition region_ok (cfg : ifx_flash_config) : Prop :=
  u32 (base_addr cfg) /\ u32 (max_addr cfg) /\ base_addr cfg < max_addr cfg.

(** A block size that fits [uint32_t row_len] and is not zero. *)
Definition block_nonzero (b : Z) : Prop := 0 < b < 2 ^ 32.

(** A row size the loops can work with: a positive multiple of 4 (the
    comment in [flash_ifx_write]: "row_len is always a multiple of 4"). *)
Definition block_ok (b : Z) : Prop := block_nonzero b /\ b mod 4 = 0.

(** The configuration as the build produces it. *)
Definition cfg_ok (cfg : ifx_flash_config) : Prop :=
  region_ok cfg /\
  block_ok (write_block_size cfg) /\ block_ok (erase_block_size cfg).

(** How a call ends: it returns, it runs into undefined behaviour of C
    (division by zero, a copy past the end of a buffer, a misaligned
    [uint32_t] pointer), or the model's loop bound was too small. *)
Inductive outcome (A : Type) : Type :=
| Done (a : A)
| Undefined
| OutOfFuel.
Arguments Done {A} a.
Arguments Undefined {A}.
Arguments OutOfFuel {A}.

(** One invocation of the row-program primitive: target address and the
    row of bytes found at the buffer it was given. *)
Definition row_call : Type := (Z * list byte)%type.

(** Modelled from the spec: the vendor primitive [Cy_Flash_WriteRow] of
    cy_flash.h, which is not part of this repository: "program one aligned
    row, return success/failure".  It receives the target address and the
    row ([row_len] bytes) at its buffer pointer, and answers whether the
    status is [CY_FLASH_DRV_SUCCESS] together with the new hardware state.
    [flash_byte] is a load from the memory-mapped flash. *)
Class RowProgrammer (HW : Type) : Type := {
  Cy_Flash_WriteRow : HW -> Z -> list byte -> bool * HW;
  flash_byte : HW -> Z -> byte
}.

(** ** The driver *)

Section Driver.
Context {HW : Type} {prog : RowProgrammer HW}.
Variable ot : off_kind.

Definition result : Type := outcome (Z * HW * list row_call).

(** Prepends the call just made to the calls of the rest of the loop. *)
Definition after_call (c : row_call) (o : result) : result :=
  match o with
  | Done (r, hw, cs) => Done (r, hw, c :: cs)
  | Undefined => Undefined
  | OutOfFuel => OutOfFuel
  end.

(** Bytes of [uint32_t row_buf[row_len / sizeof(uint32_t)]]. *)
Definition row_buf_size (row_len : Z) : Z := 4 * (row_len / 4).

(** The loop of the staged branch (source not 4-byte aligned).  [src] is
    the memory from [src_ptr] to the end of the caller's buffer. *)
Fixpoint write_loop_staged (fuel : nat) (row_len : Z) (hw : HW)
    (write_offset : Z) (src : list byte) (remaining_len : Z) : result :=
  if 0 <? remaining_len then
    match fuel with
    | O => OutOfFuel
    | S fuel' =>
        (* memcpy(row_buf, src_ptr, row_len): undefined when it reads past
           the source buffer or writes past row_buf *)
        if (Z.of_nat (length src) <? row_len) || (row_buf_size row_len <? row_len)
        then Undefined
        else
          let row_buf := firstn (Z.to_nat row_len) src in
          let (status, hw') := Cy_Flash_WriteRow hw write_offset row_buf in
          if negb status then Done (- EIO, hw', [(write_offset, row_buf)])
          else
            after_call (write_offset, row_buf)
              (write_loop_staged fuel' row_len hw'
                 (wrap32 (write_offset + row_len))
                 (skipn (Z.to_nat row_len) src)
                 (wrap32 (remaining_len - row_len)))
    end
  else Done (0, hw, []).

(** The loop of the zero-copy branch: the primitive reads the row at
    [(const uint32_t * )src_ptr], which must be 4-byte aligned and have
    [row_len] bytes behind it. *)
Fixpoint write_loop_direct (fuel : nat) (row_len : Z) (hw : HW)
    (write_offset : Z) (src_ptr : Z) (src : list byte) (remaining_len : Z)
    : result :=
  if 0 <? remaining_len then
    match fuel with
    | O => OutOfFuel
    | S fuel' =>
        (* undefined on a misaligned uint32_t pointer and when the row
           read through it ends past the source buffer *)
        if negb (Z.land src_ptr 3 =? 0) || (Z.of_nat (length src) <? row_len)
        then Undefined
        else
          let row := firstn (Z.to_nat row_len) src in
          let (status, hw') := Cy_Flash_WriteRow hw write_offset row in
          if negb status then Done (- EIO, hw', [(write_offset, row)])
          else
            after_call (write_offset, row)
              (write_loop_direct fuel' row_len hw'
                 (wrap32 (write_offset + row_len))
                 (src_ptr + row_len)
                 (skipn (Z.to_nat row_len) src)
                 (wrap32 (remaining_len - row_len)))
    end
  else Done (0, hw, []).

(** [flash_ifx_write(dev, offset, data, remaining_len)]: [data_ptr] is the
    value of the pointer [data], [data] the bytes of the caller's buffer.
    The result is the return value, the hardware state and the calls made
    to the primitive.  [cfg->base_addr + offset] is reached with
    [0 <= offset <= max_addr - base_addr] only, so the sum does not
    overflow a 64-bit [off_t] and its conversion to [uint32_t] is the
    reduction modulo 2^32 for both widths. *)
Definition flash_ifx_write (fuel : nat) (cfg : ifx_flash_config) (hw : HW)
    (offset : Z) (data_ptr : Z) (data : list byte) (remaining_len : Z)
    : result :=
  let row_len := wrap32 (write_block_size cfg) in
  if remaining_len =? 0 then Done (0, hw, [])
  else if offset <? 0 then Done (- EINVAL, hw, [])
  else if row_len =? 0 then Undefined (* offset % row_len divides by zero *)
  else if negb (off_rem ot offset row_len =? 0)
          || negb (remaining_len mod row_len =? 0)
  then Done (- EINVAL, hw, [])
  else if u32_lt_off ot (wrap32 (max_addr cfg - base_addr cfg)) offset
  then Done (- EINVAL, hw, [])
  else
    let write_offset := wrap32 (base_addr cfg + offset) in
    if wrap32 (max_addr cfg - write_offset) <? remaining_len
    then Done (- EINVAL, hw, [])
    else if negb (Z.land data_ptr 3 =? 0)
    then write_loop_staged fuel row_len hw write_offset data remaining_len
    else write_loop_direct fuel row_len hw write_offset data_ptr data
           remaining_len.

(** [n] bytes of the memory-mapped flash from address [a]. *)
Definition flash_bytes (hw : HW) (a : Z) (n : Z) : list byte :=
  map (fun i => flash_byte hw (a + Z.of_nat i)) (seq 0 (Z.to_nat n)).

(** [memcpy(dst, src, length src)] on a destination that is long enough. *)
Definition memcpy (dst src : list byte) : list byte :=
  src ++ skipn (length src) dst.

(** [flash_ifx_read(dev, offset, data, remaining_len)]: [data] is the
    caller's destination buffer; the result is the return value and the
    buffer afterwards.  The hardware state is only read. *)
Definition flash_ifx_read (cfg : ifx_flash_config) (hw : HW)
    (offset : Z) (data : list byte) (remaining_len : Z)
    : outcome (Z * list byte) :=
  if remaining_len =? 0 then Done (0, data)
  else if (offset <? 0)
          || u32_lt_off ot (wrap32 (max_addr cfg - base_addr cfg)) offset
  then Done (- EINVAL, data)
  else
    let read_offset := wrap32 (base_addr cfg + offset) in
    if wrap32 (max_addr cfg - read_offset) <? remaining_len
    then Done (- EINVAL, data)
    else if Z.of_nat (length data) <? remaining_len
    then Undefined (* memcpy writes past the destination buffer *)
    else Done (0, memcpy data (flash_bytes hw read_offset remaining_len)).

(** The loop of [flash_ifx_erase]. *)
Fixpoint erase_loop (fuel : nat) (row_len : Z) (hw : HW)
    (erase_offset : Z) (size : Z) : result :=
  if 0 <? size then
    match fuel with
    | O => OutOfFuel
    | S fuel' =>
        (* memset(row_buf, 0xFF, row_len): undefined when it writes past
           row_buf *)
        if row_buf_size row_len <? row_len then Undefined
        else
          let row_buf := repeat xff (Z.to_nat row_len) in
          let (status, hw') := Cy_Flash_WriteRow hw erase_offset row_buf in
          if negb status then Done (- EIO, hw', [(erase_offset, row_buf)])
          else
            after_call (erase_offset, row_buf)
              (erase_loop fuel' row_len hw'
                 (wrap32 (erase_offset + row_len))
                 (wrap32 (size - row_len)))
    end
  else Done (0, hw, []).

(** [flash_ifx_erase(dev, offset, size)].  [row_buf] is declared before
    the test of [size]; GNU C, the dialect of the build, accepts an array
    of no element, so the declaration itself has no effect here. *)
Definition flash_ifx_erase (fuel : nat) (cfg : ifx_flash_config) (hw : HW)
    (offset : Z) (size : Z) : result :=
  let row_len := wrap32 (erase_block_size cfg) in
  if size =? 0 then Done (0, hw, [])
  else if row_len =? 0 then Undefined (* offset % row_len divides by zero *)
  else if negb (off_rem ot offset row_len =? 0) then Done (- EINVAL, hw, [])
  else if negb (size mod row_len =? 0) then Done (- EINVAL, hw, [])
  else if (offset <? 0)
          || u32_lt_off ot (wrap32 (max_addr cfg - base_addr cfg)) offset
  then Done (- EINVAL, hw, [])
  else
    let erase_offset := wrap32 (base_addr cfg + offset) in
    if wrap32 (max_addr cfg - erase_offset) <? size
    then Done (- EINVAL, hw, [])
    else erase_loop fuel row_len hw erase_offset size.

(** [flash_ifx_get_size(dev, &size)]: the return value and [*size]. *)
Definition flash_ifx_get_size (cfg : ifx_flash_config) : Z * Z :=
  (0, wrap32 (max_addr cfg - base_addr cfg)).

End Driver.

(** ** Devicetree, configuration and static tables *)

(** The devicetree node [SOC_NV_FLASH_NODE] as the macros of the file read
    it: [DT_REG_ADDR], [DT_REG_SIZE] and the two [DT_PROP]s.  The generated
    devicetree header is not part of the file, so the node is a parameter. *)
Record flash_node : Type := {
  DT_REG_ADDR : Z;
  DT_REG_SIZE : Z;
  DT_PROP_write_block_size : Z;
  DT_PROP_erase_block_size : Z
}.

Definition IFX_FLASH_BASE (dt : flash_node) : Z := DT_REG_ADDR dt.
Definition IFX_FLASH_SIZE (dt : flash_node) : Z := DT_REG_SIZE dt.
Definition IFX_FLASH_MAX (dt : flash_node) : Z :=
  IFX_FLASH_BASE dt + IFX_FLASH_SIZE dt.

(** The two [BUILD_ASSERT]s of the file. *)
Definition build_asserts (dt : flash_node) : bool :=
  (0 <? IFX_FLASH_SIZE dt) && (IFX_FLASH_BASE dt <? IFX_FLASH_MAX dt).

(** [ifx_flash_config_parameters]: the initialisers converted to the
    32-bit fields. *)
Definition ifx_flash_config_parameters (dt : flash_node) : ifx_flash_config :=
  {| base_addr := wrap32 (DT_REG_ADDR dt);
     max_addr := wrap32 (DT_REG_ADDR dt + DT_REG_SIZE dt);
     write_block_size := wrap32 (DT_PROP_write_block_size dt);
     erase_block_size := wrap32 (DT_PROP_erase_block_size dt) |}.

(** [flash_ifx_get_parameters(dev)]: the address of the static
    [flash_parameters]. *)
Definition flash_ifx_get_parameters (cfg : ifx_flash_config)
    : flash_parameters_t :=
  flash_parameters cfg.

Record flash_pages_layout_t : Type := {
  pages_count : Z;
  pages_size : Z
}.

(** The static [flash_pages_layout]; [/] of C truncates. *)
Definition flash_pages_layout (dt : flash_node) : flash_pages_layout_t :=
  {| pages_count :=
       wrap32 (Z.quot (DT_REG_SIZE dt) (DT_PROP_write_block_size dt));
     pages_size := wrap32 (DT_PROP_write_block_size dt) |}.

(** [flash_ifx_page_layout(dev, &layout, &layout_size)]: the two values
    stored. *)
Definition flash_ifx_page_layout (dt : flash_node)
    : flash_pages_layout_t * Z :=
  (flash_pages_layout dt, 1).

(** A node of the 32-bit address space that passes the build.  The sums
    the macros form are taken exactly: the devicetree literals are wide
    enough for the addresses of the node. *)
Definition dt_ok (dt : flash_node) : Prop :=
  0 <= DT_REG_ADDR dt /\ DT_REG_ADDR dt + DT_REG_SIZE dt < 2 ^ 32 /\
  build_asserts dt = true /\
  block_ok (DT_PROP_write_block_size dt) /\
  block_ok (DT_PROP_erase_block_size dt).

(** ** Simulators of the primitive *)

(** Memory after storing [row] at [addr]. *)
Definition store_row (m : Z -> byte) (addr : Z) (row : list byte) : Z -> byte :=
  fun x =>
    if (addr <=? x) && (x <? addr + Z.of_nat (length row))
    then nth (Z.to_nat (x - addr)) row x00
    else m x.

(** The faithful simulator: it stores exactly the row it is given. *)
#[export] Instance Simulator : RowProgrammer (Z -> byte) := {
  Cy_Flash_WriteRow := fun m addr row => (true, store_row m addr row);
  flash_byte := fun m x => m x
}.

(** A simulator that programs faithfully a given number of rows and fails
    on every call after them, leaving the memory as it is. *)
Definition failing_write_row (s : nat * (Z -> byte)) (addr : Z)
    (row : list byte) : bool * (nat * (Z -> byte)) :=
  match fst s with
  | O => (false, s)
  | S k => (true, (k, store_row (snd s) addr row))
  end.

Definition FailingSimulator : RowProgrammer (nat * (Z -> byte)) := {|
  Cy_Flash_WriteRow := failing_write_row;
  flash_byte := fun s x => snd s x
|}.

(** ** Vocabulary of the statements *)

(** Row [k] of a buffer cut into rows of [row_len] bytes. *)
Definition row_at (row_len : Z) (data : list byte) (k : nat) : list byte :=
  firstn (Z.to_nat row_len) (skipn (k * Z.to_nat row_len) data).

(** The calls that program the first [n] rows of [data] from [addr] on. *)
Definition row_calls (row_len addr : Z) (data : list byte) (n : nat)
    : list row_call :=
  map (fun k => (addr + Z.of_nat k * row_len, row_at row_len data k)) (seq 0 n).

(** The calls that erase [n] rows from [addr] on. *)
Definition erase_calls (row_len addr : Z) (n : nat) : list row_call :=
  map (fun k => (addr + Z.of_nat k * row_len, repeat xff (Z.to_nat row_len)))
      (seq 0 n).

(** A request that passes validation with block size [b]. *)
Definition request_ok (cfg : ifx_flash_config) (b offset len : Z) : Prop :=
  0 <= offset /\ offset mod b = 0 /\ len mod b = 0 /\
  offset + len <= max_addr cfg - base_addr cfg.

(** A call whose row of [row_len] bytes lies inside the region. *)
Definition call_in_region (cfg : ifx_flash_config) (row_len : Z) (c : row_call)
    : Prop :=
  base_addr cfg <= fst c /\ fst c + row_len <= max_addr cfg.

(** Memory after a sequence of faithful row programs. *)
Definition store_rows (m : Z -> byte) (cs : list row_call) : Z -> byte :=
  fold_left (fun m' c => store_row m' (fst c) (snd c)) cs m.

Section Primitive.
Context {HW : Type} {prog : RowProgrammer HW}.

(** The primitive run over a list of calls, stopping at the first
    failure: the return value of the loop, the final hardware state and
    the calls made. *)
Fixpoint program_rows (hw : HW) (cs : list row_call)
    : Z * HW * list row_call :=
  match cs with
  | [] => (0, hw, [])
  | c :: cs' =>
      let (status, hw') := Cy_Flash_WriteRow hw (fst c) (snd c) in
      if negb status then (- EIO, hw', [c])
      else
        let '(r, hw'', made) := program_rows hw' cs' in
        (r, hw'', c :: made)
  end.

(** Every call of the list succeeds, in order, from [hw] to the last
    state. *)
Inductive programmed : HW -> list row_call -> HW -> Prop :=
| programmed_nil hw : programmed hw [] hw
| programmed_cons hw c hw1 cs hw2 :
    Cy_Flash_WriteRow hw (fst c) (snd c) = (true, hw1) ->
    programmed hw1 cs hw2 ->
    programmed hw (c :: cs) hw2.

(** The primitive is a faithful simulator: it always succeeds and stores
    exactly the row it is given. *)
Definition faithful : Prop :=
  forall hw addr row,
    exists hw',
      Cy_Flash_WriteRow hw addr row = (true, hw') /\
      forall x, flash_byte hw' x = store_row (flash_byte hw) addr row x.
End Primitive.

(** A device and a memory for the examples: the region [0x1000, 0x2000)
    with rows of 256 bytes. *)
Definition cfg_demo : ifx_flash_config :=
  {| base_addr := 0x1000; max_addr := 0x2000;
     write_block_size := 256; erase_block_size := 256 |}.

Definition mem_demo : Z -> byte := fun _ => x00.

(** A device at the top of the address space: [0xFFFFF000, 0xFFFFFF00). *)
Definition cfg_top : ifx_flash_config :=
  {| base_addr := 0xFFFFF000; max_addr := 0xFFFFFF00;
     write_block_size := 256; erase_block_size := 256 |}.

(** A node for the examples: the device [cfg_demo]. *)
Definition dt_demo : flash_node :=
  {| DT_REG_ADDR := 0x1000; DT_REG_SIZE := 0x1000;
     DT_PROP_write_block_size := 256; DT_PROP_erase_block_size := 256 |}.

(** * Proofs *)

(** ** Arithmetic of the C types *)

Lemma wrap32_small (z : Z) : 0 <= z < 2 ^ 32 -> wrap32 z = z.
Proof. intros H. unfold wrap32. now apply Z.mod_small. Qed.

Lemma off_range_nonneg_u32 (ot : off_kind) (z : Z) :
  off_range ot z -> 0 <= z -> ot = Off32 -> 0 <= z < 2 ^ 32.
Proof.
  intros H Hz ->. unfold off_range in H. simpl in H. lia.
Qed.

Lemma off_rem_nonneg (ot : off_kind) (offset b : Z) :
  off_range ot offset -> 0 <= offset -> 0 < b ->
  off_rem ot offset b = offset mod b.
Proof.
  intros Hr Ho Hb. destruct ot; simpl.
  - rewrite wrap32_small; [reflexivity|].
    now apply (off_range_nonneg_u32 Off32).
  - now apply Z.rem_mod_nonneg.
Qed.

Lemma u32_lt_off_nonneg (ot : off_kind) (u offset : Z) :
  off_range ot offset -> 0 <= offset ->
  u32_lt_off ot u offset = (u <? offset).
Proof.
  intros Hr Ho. destruct ot; simpl; [|reflexivity].
  rewrite wrap32_small; [reflexivity|].
  now apply (off_range_nonneg_u32 Off32).
Qed.

Lemma land3_mod4 (p : Z) : Z.land p 3 = p mod 4.
Proof. change 3 with (Z.ones 2). now rewrite Z.land_ones by lia. Qed.

Lemma aligned_step (p row_len : Z) :
  row_len mod 4 = 0 -> Z.land p 3 = 0 -> Z.land (p + row_len) 3 = 0.
Proof.
  rewrite !land3_mod4. intros Hr Hp.
  rewrite Z.add_mod by lia. rewrite Hr, Hp. reflexivity.
Qed.

Lemma alignment_invariant (p row_len : Z) (k : nat) :
  row_len mod 4 = 0 -> Z.land (p + Z.of_nat k * row_len) 3 = Z.land p 3.
Proof.
  intros Hr. rewrite !land3_mod4.
  rewrite <- Z.add_mod_idemp_r by lia.
  rewrite Z.mul_mod by lia. rewrite Hr, Z.mul_0_r. cbn [Z.modulo Z.div_eucl].
  now rewrite Z.add_0_r.
Qed.

Lemma row_buf_size_exact (row_len : Z) :
  row_len mod 4 = 0 -> row_buf_size row_len = row_len.
Proof.
  intros H. unfold row_buf_size.
  pose proof (Z.div_mod row_len 4 ltac:(lia)). lia.
Qed.

Lemma rows_of_len (len b : Z) :
  0 < b -> 0 <= len -> len mod b = 0 ->
  len = Z.of_nat (Z.to_nat (len / b)) * b.
Proof.
  intros Hb Hl Hm.
  pose proof (Z.div_mod len b ltac:(lia)).
  assert (0 <= len / b) by (apply Z.div_pos; lia).
  rewrite Z2Nat.id by lia. lia.
Qed.

(** ** The lists of calls *)

Lemma row_calls_S (row_len addr : Z) (data : list byte) (n : nat) :
  row_calls row_len addr data (S n) =
  (addr, firstn (Z.to_nat row_len) data)
    :: row_calls row_len (addr + row_len) (skipn (Z.to_nat row_len) data) n.
Proof.
  unfold row_calls. cbn [seq map]. f_equal.
  - unfold row_at. cbn [Nat.mul skipn]. f_equal. lia.
  - rewrite <- seq_shift, map_map. apply map_ext. intros k. f_equal.
    + lia.
    + unfold row_at. rewrite skipn_skipn. do 2 f_equal. lia.
Qed.

Lemma erase_calls_S (row_len addr : Z) (n : nat) :
  erase_calls row_len addr (S n) =
  (addr, repeat xff (Z.to_nat row_len))
    :: erase_calls row_len (addr + row_len) n.
Proof.
  unfold erase_calls. cbn [seq map]. f_equal.
  - f_equal. lia.
  - rewrite <- seq_shift, map_map. apply map_ext. intros k. f_equal. lia.
Qed.

Lemma row_calls_in_region (cfg : ifx_flash_config) (row_len addr : Z)
    (data : list byte) (n : nat) :
  0 < row_len -> base_addr cfg <= addr ->
  addr + Z.of_nat n * row_len <= max_addr cfg ->
  Forall (call_in_region cfg row_len) (row_calls row_len addr data n).
Proof.
  intros Hr Hlo Hhi. unfold row_calls. apply Forall_forall.
  intros c Hc. apply in_map_iff in Hc. destruct Hc as [k [<- Hk]].
  apply in_seq in Hk. unfold call_in_region. simpl. nia.
Qed.

Lemma erase_calls_in_region (cfg : ifx_flash_config) (row_len addr : Z)
    (n : nat) :
  0 < row_len -> base_addr cfg <= addr ->
  addr + Z.of_nat n * row_len <= max_addr cfg ->
  Forall (call_in_region cfg row_len) (erase_calls row_len addr n).
Proof.
  intros Hr Hlo Hhi. unfold erase_calls. apply Forall_forall.
  intros c Hc. apply in_map_iff in Hc. destruct Hc as [k [<- Hk]].
  apply in_seq in Hk. unfold call_in_region. simpl. nia.
Qed.

Lemma map_seq_split {A : Type} (f : nat -> A) (k n : nat) :
  (k < n)%nat ->
  map f (seq 0 n) = map f (seq 0 k) ++ f k :: map f (seq (S k) (n - S k)).
Proof.
  intros Hk. replace n with (k + S (n - S k))%nat at 1 by lia.
  rewrite seq_app, map_app. reflexivity.
Qed.

Lemma map_seq_snoc {A : Type} (f : nat -> A) (k : nat) :
  map f (seq 0 (S k)) = map f (seq 0 k) ++ [f k].
Proof. rewrite seq_S, map_app. reflexivity. Qed.

(** ** The loops run the primitive over the rows, one call per row *)

Section Loops.
Context {HW : Type} {prog : RowProgrammer HW}.

Lemma after_call_program_rows (c : row_call) (hw : HW) (cs : list row_call) :
  after_call c (Done (program_rows hw cs)) =
  Done (let '(r, hw', made) := program_rows hw cs in (r, hw', c :: made)).
Proof. destruct (program_rows hw cs) as [[r hw'] made]. reflexivity. Qed.

Lemma write_loop_staged_runs (row_len : Z) :
  0 < row_len -> row_len mod 4 = 0 ->
  forall (n fuel : nat) (hw : HW) (a : Z) (src : list byte),
    0 <= a -> a + Z.of_nat n * row_len < 2 ^ 32 ->
    Z.of_nat n * row_len <= Z.of_nat (length src) ->
    (n <= fuel)%nat ->
    write_loop_staged fuel row_len hw a src (Z.of_nat n * row_len) =
    Done (program_rows hw (row_calls row_len a src n)).
Proof.
  intros Hr H4. induction n as [|n IH]; intros fuel hw a src Ha Hhi Hsrc Hfuel.
  - destruct fuel; reflexivity.
  - destruct fuel as [|fuel]; [lia|].
    rewrite row_calls_S. cbn [write_loop_staged program_rows fst snd].
    assert (Hpos : (0 <? Z.of_nat (S n) * row_len) = true) by (apply Z.ltb_lt; nia).
    assert (H1 : (Z.of_nat (length src) <? row_len) = false) by (apply Z.ltb_ge; nia).
    assert (H2 : (row_buf_size row_len <? row_len) = false)
      by (rewrite row_buf_size_exact by assumption; apply Z.ltb_irrefl).
    rewrite Hpos, H1, H2. cbn [orb].
    destruct (Cy_Flash_WriteRow hw a (firstn (Z.to_nat row_len) src))
      as [status hw'].
    destruct status; cbn [negb]; [|reflexivity].
    rewrite (wrap32_small (a + row_len)) by nia.
    replace (wrap32 (Z.of_nat (S n) * row_len - row_len))
      with (Z.of_nat n * row_len) by (rewrite wrap32_small; nia).
    rewrite IH; [apply after_call_program_rows|lia|nia| |lia].
    rewrite length_skipn. nia.
Qed.

Lemma write_loop_direct_runs (row_len : Z) :
  0 < row_len -> row_len mod 4 = 0 ->
  forall (n fuel : nat) (hw : HW) (a p : Z) (src : list byte),
    Z.land p 3 = 0 ->
    0 <= a -> a + Z.of_nat n * row_len < 2 ^ 32 ->
    Z.of_nat n * row_len <= Z.of_nat (length src) ->
    (n <= fuel)%nat ->
    write_loop_direct fuel row_len hw a p src (Z.of_nat n * row_len) =
    Done (program_rows hw (row_calls row_len a src n)).
Proof.
  intros Hr H4.
  induction n as [|n IH]; intros fuel hw a p src Hp Ha Hhi Hsrc Hfuel.
  - destruct fuel; reflexivity.
  - destruct fuel as [|fuel]; [lia|].
    rewrite row_calls_S. cbn [write_loop_direct program_rows fst snd].
    assert (Hpos : (0 <? Z.of_nat (S n) * row_len) = true) by (apply Z.ltb_lt; nia).
    assert (H1 : (Z.of_nat (length src) <? row_len) = false) by (apply Z.ltb_ge; nia).
    rewrite Hpos, H1, Hp. cbn [Z.eqb negb orb].
    destruct (Cy_Flash_WriteRow hw a (firstn (Z.to_nat row_len) src))
      as [status hw'].
    destruct status; cbn [negb]; [|reflexivity].
    rewrite (wrap32_small (a + row_len)) by nia.
    replace (wrap32 (Z.of_nat (S n) * row_len - row_len))
      with (Z.of_nat n * row_len) by (rewrite wrap32_small; nia).
    rewrite IH; [apply after_call_program_rows| |lia|nia| |lia].
    + now apply aligned_step.
    + rewrite length_skipn. nia.
Qed.

Lemma erase_loop_runs (row_len : Z) :
  0 < row_len -> row_len mod 4 = 0 ->
  forall (n fuel : nat) (hw : HW) (a : Z),
    0 <= a -> a + Z.of_nat n * row_len < 2 ^ 32 ->
    (n <= fuel)%nat ->
    erase_loop fuel row_len hw a (Z.of_nat n * row_len) =
    Done (program_rows hw (erase_calls row_len a n)).
Proof.
  intros Hr H4. induction n as [|n IH]; intros fuel hw a Ha Hhi Hfuel.
  - destruct fuel; reflexivity.
  - destruct fuel as [|fuel]; [lia|].
    rewrite erase_calls_S. cbn [erase_loop program_rows fst snd].
    assert (Hpos : (0 <? Z.of_nat (S n) * row_len) = true) by (apply Z.ltb_lt; nia).
    assert (H2 : (row_buf_size row_len <? row_len) = false)
      by (rewrite row_buf_size_exact by assumption; apply Z.ltb_irrefl).
    rewrite Hpos, H2.
    destruct (Cy_Flash_WriteRow hw a (repeat xff (Z.to_nat row_len)))
      as [status hw'].
    destruct status; cbn [negb]; [|reflexivity].
    rewrite (wrap32_small (a + row_len)) by nia.
    replace (wrap32 (Z.of_nat (S n) * row_len - row_len))
      with (Z.of_nat n * row_len) by (rewrite wrap32_small; nia).
    rewrite IH; [apply after_call_program_rows|lia|nia|lia].
Qed.

(** *** What a run of the primitive can produce *)

Lemma program_rows_code (cs : list row_call) (hw : HW) :
  fst (fst (program_rows hw cs)) = 0 \/ fst (fst (program_rows hw cs)) = - EIO.
Proof.
  revert hw. induction cs as [|c cs IH]; intros hw; cbn [program_rows].
  - left. reflexivity.
  - destruct (Cy_Flash_WriteRow hw (fst c) (snd c)) as [status hw'].
    destruct status; cbn [negb].
    + specialize (IH hw'). destruct (program_rows hw' cs) as [[r hw''] made].
      exact IH.
    + right. reflexivity.
Qed.

Lemma program_rows_made (P : row_call -> Prop) (cs : list row_call) (hw : HW) :
  Forall P cs -> Forall P (snd (program_rows hw cs)).
Proof.
  revert hw. induction cs as [|c cs IH]; intros hw HP; cbn [program_rows].
  - constructor.
  - inversion HP as [|c' cs' Hc Hcs]; subst.
    destruct (Cy_Flash_WriteRow hw (fst c) (snd c)) as [status hw'].
    destruct status; cbn [negb].
    + specialize (IH hw' Hcs). destruct (program_rows hw' cs) as [[r hw''] made].
      constructor; assumption.
    + constructor; [assumption|constructor].
Qed.

Lemma program_rows_programmed (hw : HW) (cs : list row_call) (hw' : HW) :
  programmed hw cs hw' -> program_rows hw cs = (0, hw', cs).
Proof.
  induction 1 as [hw|hw c hw1 cs hw2 Hc _ IH]; cbn [program_rows].
  - reflexivity.
  - rewrite Hc. cbn [negb]. rewrite IH. reflexivity.
Qed.

Lemma program_rows_first_failure (hw : HW) (cs : list row_call) (hw1 : HW)
    (c : row_call) (hw2 : HW) (rest : list row_call) :
  programmed hw cs hw1 ->
  Cy_Flash_WriteRow hw1 (fst c) (snd c) = (false, hw2) ->
  program_rows hw (cs ++ c :: rest) = (- EIO, hw2, cs ++ [c]).
Proof.
  intros Hp Hc.
  induction Hp as [hw|hw c0 hw1 cs hw3 Hc0 _ IH]; cbn [program_rows app].
  - rewrite Hc. reflexivity.
  - rewrite Hc0. cbn [negb]. rewrite (IH Hc). reflexivity.
Qed.

Lemma store_rows_ext (cs : list row_call) (m1 m2 : Z -> byte) :
  (forall x, m1 x = m2 x) -> forall x, store_rows m1 cs x = store_rows m2 cs x.
Proof.
  revert m1 m2. induction cs as [|c cs IH]; intros m1 m2 Hm x.
  - apply Hm.
  - cbn [store_rows fold_left]. apply IH. intros y.
    unfold store_row. now rewrite Hm.
Qed.

Lemma faithful_programmed :
  faithful ->
  forall (cs : list row_call) (hw : HW),
    exists hw',
      programmed hw cs hw' /\
      forall x, flash_byte hw' x = store_rows (flash_byte hw) cs x.
Proof.
  intros Hf. induction cs as [|c cs IH]; intros hw.
  - exists hw. split; [constructor|reflexivity].
  - destruct (Hf hw (fst c) (snd c)) as [hw1 [Hc Hm1]].
    destruct (IH hw1) as [hw2 [Hp Hm2]].
    exists hw2. split; [econstructor; eassumption|].
    intros x. rewrite Hm2. cbn [store_rows fold_left].
    now apply store_rows_ext.
Qed.
End Loops.

(** ** Memory after the rows were stored *)

Lemma store_rows_row_calls (row_len : Z) :
  0 < row_len ->
  forall (n : nat) (m : Z -> byte) (a : Z) (data : list byte) (x : Z),
    Z.of_nat n * row_len <= Z.of_nat (length data) ->
    store_rows m (row_calls row_len a data n) x =
    if (a <=? x) && (x <? a + Z.of_nat n * row_len)
    then nth (Z.to_nat (x - a)) data x00
    else m x.
Proof.
  intros Hr. induction n as [|n IH]; intros m a data x Hlen.
  - cbn [row_calls seq map store_rows fold_left].
    destruct (Z.leb_spec a x); destruct (Z.ltb_spec x (a + Z.of_nat 0 * row_len));
      cbn [andb]; try reflexivity; lia.
  - rewrite row_calls_S. cbn [store_rows fold_left fst snd].
    change (fold_left _ ?cs ?m0) with (store_rows m0 cs).
    rewrite IH by (rewrite length_skipn; nia).
    unfold store_row. rewrite length_firstn.
    replace (Z.of_nat (Nat.min (Z.to_nat row_len) (length data)))
      with row_len by nia.
    rewrite nth_skipn, nth_firstn.
    destruct (Z.leb_spec (a + row_len) x);
      destruct (Z.ltb_spec x (a + row_len + Z.of_nat n * row_len));
      destruct (Z.leb_spec a x);
      destruct (Z.ltb_spec x (a + row_len));
      destruct (Z.ltb_spec x (a + Z.of_nat (S n) * row_len));
      cbn [andb]; try lia; try reflexivity.
    + f_equal. lia.
    + destruct (Nat.ltb_spec (Z.to_nat (x - a)) (Z.to_nat row_len));
        [reflexivity|lia].
Qed.

Lemma store_rows_erase_calls (row_len : Z) :
  0 < row_len ->
  forall (n : nat) (m : Z -> byte) (a x : Z),
    store_rows m (erase_calls row_len a n) x =
    if (a <=? x) && (x <? a + Z.of_nat n * row_len) then xff else m x.
Proof.
  intros Hr. induction n as [|n IH]; intros m a x.
  - cbn [erase_calls seq map store_rows fold_left].
    destruct (Z.leb_spec a x); destruct (Z.ltb_spec x (a + Z.of_nat 0 * row_len));
      cbn [andb]; try reflexivity; lia.
  - rewrite erase_calls_S. cbn [store_rows fold_left fst snd].
    change (fold_left _ ?cs ?m0) with (store_rows m0 cs).
    rewrite IH. unfold store_row. rewrite repeat_length.
    rewrite Z2Nat.id by lia.
    destruct (Z.leb_spec (a + row_len) x);
      destruct (Z.ltb_spec x (a + row_len + Z.of_nat n * row_len));
      destruct (Z.leb_spec a x);
      destruct (Z.ltb_spec x (a + row_len));
      destruct (Z.ltb_spec x (a + Z.of_nat (S n) * row_len));
      cbn [andb]; try lia; try reflexivity.
    rewrite (nth_indep _ x00 xff) by (rewrite repeat_length; lia).
    apply nth_repeat.
Qed.

Lemma flash_bytes_eq {HW : Type} {prog : RowProgrammer HW} (hw : HW) (a : Z)
    (l : list byte) :
  (forall i : nat, (i < length l)%nat ->
     flash_byte hw (a + Z.of_nat i) = nth i l x00) ->
  flash_bytes hw a (Z.of_nat (length l)) = l.
Proof.
  intros H. unfold flash_bytes. rewrite Nat2Z.id.
  apply (nth_ext _ _ x00 x00).
  - now rewrite length_map, length_seq.
  - intros i Hi. rewrite length_map, length_seq in Hi.
    rewrite (nth_indep _ x00 (flash_byte hw (a + Z.of_nat 0)))
      by (now rewrite length_map, length_seq).
    rewrite (map_nth (fun i => flash_byte hw (a + Z.of_nat i))).
    rewrite seq_nth by assumption. now apply H.
Qed.

(** ** Validation of the three entry points *)

Lemma request_ok_dec (cfg : ifx_flash_config) (b offset len : Z) :
  {request_ok cfg b offset len} + {~ request_ok cfg b offset len}.
Proof.
  unfold request_ok.
  destruct (Z_le_dec 0 offset); [|right; tauto].
  destruct (Z.eq_dec (offset mod b) 0); [|right; tauto].
  destruct (Z.eq_dec (len mod b) 0); [|right; tauto].
  destruct (Z_le_dec (offset + len) (max_addr cfg - base_addr cfg));
    [left|right]; tauto.
Qed.

Ltac unpack_cfg H :=
  let Hb := fresh "Hbase" in
  let Hm := fresh "Hmax" in
  let Hlt := fresh "Hregion" in
  let Hw := fresh "Hwbs" in
  let Hw4 := fresh "Hwbs4" in
  let He := fresh "Hebs" in
  let He4 := fresh "Hebs4" in
  destruct H as ((Hb & Hm & Hlt) & (Hw & Hw4) & (He & He4));
  unfold u32, block_nonzero in Hb, Hm, Hw, He.

Ltac unpack_region H :=
  let Hb := fresh "Hbase" in
  let Hm := fresh "Hmax" in
  let Hlt := fresh "Hregion" in
  destruct H as (Hb & Hm & Hlt);
  unfold u32 in Hb, Hm.

Section EntryPoints.
Context {HW : Type} {prog : RowProgrammer HW}.
Variable ot : off_kind.

(** The two bound checks on a non-negative offset. *)
Lemma bound_checks (cfg : ifx_flash_config) (offset len : Z) :
  region_ok cfg -> off_range ot offset -> 0 <= offset -> u32 len ->
  (u32_lt_off ot (wrap32 (max_addr cfg - base_addr cfg)) offset = true /\
   max_addr cfg - base_addr cfg < offset) \/
  (u32_lt_off ot (wrap32 (max_addr cfg - base_addr cfg)) offset = false /\
   wrap32 (base_addr cfg + offset) = base_addr cfg + offset /\
   (wrap32 (max_addr cfg - wrap32 (base_addr cfg + offset)) <? len) =
   negb (offset + len <=? max_addr cfg - base_addr cfg)).
Proof.
  intros Hcfg Hoff Ho Hlen. unpack_region Hcfg. unfold u32 in Hlen.
  rewrite u32_lt_off_nonneg by assumption.
  rewrite (wrap32_small (max_addr cfg - base_addr cfg)) by lia.
  destruct (Z.ltb_spec (max_addr cfg - base_addr cfg) offset) as [Hgt|Hle].
  - left. split; [reflexivity|assumption].
  - right. split; [reflexivity|].
    rewrite (wrap32_small (base_addr cfg + offset)) by lia.
    split; [reflexivity|].
    rewrite wrap32_small by lia.
    destruct (Z.ltb_spec (max_addr cfg - (base_addr cfg + offset)) len);
      destruct (Z.leb_spec (offset + len) (max_addr cfg - base_addr cfg));
      cbn [negb]; try reflexivity; lia.
Qed.

Lemma write_rejects (fuel : nat) (cfg : ifx_flash_config) (hw : HW)
    (offset data_ptr : Z) (data : list byte) (len : Z) :
  region_ok cfg -> block_nonzero (write_block_size cfg) ->
  off_range ot offset -> u32 len -> len <> 0 ->
  ~ request_ok cfg (write_block_size cfg) offset len ->
  flash_ifx_write ot fuel cfg hw offset data_ptr data len =
  Done (- EINVAL, hw, []).
Proof.
  intros Hcfg Hblk Hoff Hlen Hnz Hbad. unfold flash_ifx_write.
  unfold block_nonzero in Hblk.
  destruct (Z.eqb_spec len 0) as [|_]; [contradiction|].
  destruct (Z.ltb_spec offset 0) as [|Ho]; [reflexivity|].
  destruct (bound_checks cfg offset len Hcfg Hoff Ho Hlen)
    as [[Hc _]|(Hc & Ha & Hb)].
  all: rewrite (wrap32_small (write_block_size cfg)) by lia.
  all: destruct (Z.eqb_spec (write_block_size cfg) 0) as [|_]; [lia|].
  all: rewrite off_rem_nonneg by (assumption || lia).
  all: destruct (Z.eqb_spec (offset mod write_block_size cfg) 0) as [Hom|];
    [|reflexivity].
  all: destruct (Z.eqb_spec (len mod write_block_size cfg) 0) as [Hlm|];
    [|reflexivity].
  all: cbn [negb orb]; rewrite Hc; try reflexivity.
  cbv zeta. rewrite Hb.
  destruct (Z.leb_spec (offset + len) (max_addr cfg - base_addr cfg));
    [|reflexivity].
  exfalso. apply Hbad. unfold request_ok. tauto.
Qed.

Lemma write_accepts (fuel : nat) (cfg : ifx_flash_config) (hw : HW)
    (offset data_ptr : Z) (data : list byte) (len : Z) :
  cfg_ok cfg -> off_range ot offset -> 0 < len ->
  request_ok cfg (write_block_size cfg) offset len ->
  len <= Z.of_nat (length data) ->
  len / write_block_size cfg <= Z.of_nat fuel ->
  flash_ifx_write ot fuel cfg hw offset data_ptr data len =
  Done (program_rows hw
          (row_calls (write_block_size cfg) (base_addr cfg + offset) data
             (Z.to_nat (len / write_block_size cfg)))).
Proof.
  intros Hcfg Hoff Hpos (Ho & Hom & Hlm & Hin) Hdata Hfuel.
  unfold flash_ifx_write.
  destruct (Z.eqb_spec len 0) as [|_]; [lia|].
  destruct (Z.ltb_spec offset 0) as [|_]; [lia|].
  assert (Hlen : u32 len) by (unpack_cfg Hcfg; unfold u32; lia).
  destruct (bound_checks cfg offset len (proj1 Hcfg) Hoff Ho Hlen)
    as [[_ Hc]|(Hc & Ha & Hb)]; [lia|].
  unpack_cfg Hcfg.
  rewrite (wrap32_small (write_block_size cfg)) by lia.
  destruct (Z.eqb_spec (write_block_size cfg) 0) as [|_]; [lia|].
  rewrite off_rem_nonneg by (assumption || lia).
  cbv zeta. rewrite Hom, Hlm, Hc, Hb, Ha. cbn [Z.eqb negb orb].
  destruct (Z.leb_spec (offset + len) (max_addr cfg - base_addr cfg));
    [cbn [negb]|lia].
  pose proof (rows_of_len len (write_block_size cfg) ltac:(lia) ltac:(lia) Hlm)
    as Hrows.
  set (n := Z.to_nat (len / write_block_size cfg)) in *.
  assert (Hn : (n <= fuel)%nat) by (subst n; lia).
  clearbody n. subst len.
  destruct (Z.eqb_spec (Z.land data_ptr 3) 0) as [Hal|_]; cbn [negb].
  - apply write_loop_direct_runs; (assumption || lia).
  - apply write_loop_staged_runs; (assumption || lia).
Qed.

Lemma erase_rejects (fuel : nat) (cfg : ifx_flash_config) (hw : HW)
    (offset size : Z) :
  region_ok cfg -> block_nonzero (erase_block_size cfg) ->
  off_range ot offset -> u32 size -> size <> 0 ->
  ~ request_ok cfg (erase_block_size cfg) offset size ->
  flash_ifx_erase ot fuel cfg hw offset size = Done (- EINVAL, hw, []).
Proof.
  intros Hcfg Hblk Hoff Hlen Hnz Hbad. unfold flash_ifx_erase.
  unfold block_nonzero in Hblk.
  destruct (Z.eqb_spec size 0) as [|_]; [contradiction|].
  assert (Hrow : wrap32 (erase_block_size cfg) = erase_block_size cfg)
    by (apply wrap32_small; lia).
  rewrite Hrow.
  destruct (Z.eqb_spec (erase_block_size cfg) 0) as [|_]; [lia|].
  destruct (Z.eqb_spec (off_rem ot offset (erase_block_size cfg)) 0)
    as [Hrem|]; [|reflexivity].
  destruct (Z.eqb_spec (size mod erase_block_size cfg) 0) as [Hlm|];
    [|reflexivity].
  cbn [negb].
  destruct (Z.ltb_spec offset 0) as [|Ho]; [reflexivity|]. cbn [orb].
  destruct (bound_checks cfg offset size Hcfg Hoff Ho Hlen)
    as [[Hc _]|(Hc & Ha & Hb)]; rewrite Hc; [reflexivity|].
  cbv zeta. rewrite Hb.
  destruct (Z.leb_spec (offset + size) (max_addr cfg - base_addr cfg));
    [|reflexivity].
  exfalso. apply Hbad. unfold request_ok.
  rewrite off_rem_nonneg in Hrem by (assumption || lia).
  tauto.
Qed.

Lemma erase_accepts (fuel : nat) (cfg : ifx_flash_config) (hw : HW)
    (offset size : Z) :
  cfg_ok cfg -> off_range ot offset -> 0 < size ->
  request_ok cfg (erase_block_size cfg) offset size ->
  size / erase_block_size cfg <= Z.of_nat fuel ->
  flash_ifx_erase ot fuel cfg hw offset size =
  Done (program_rows hw
          (erase_calls (erase_block_size cfg) (base_addr cfg + offset)
             (Z.to_nat (size / erase_block_size cfg)))).
Proof.
  intros Hcfg Hoff Hpos (Ho & Hom & Hlm & Hin) Hfuel.
  unfold flash_ifx_erase.
  destruct (Z.eqb_spec size 0) as [|_]; [lia|].
  assert (Hlen : u32 size) by (unpack_cfg Hcfg; unfold u32; lia).
  destruct (bound_checks cfg offset size (proj1 Hcfg) Hoff Ho Hlen)
    as [[_ Hc]|(Hc & Ha & Hb)]; [lia|].
  unpack_cfg Hcfg.
  rewrite (wrap32_small (erase_block_size cfg)) by lia.
  destruct (Z.eqb_spec (erase_block_size cfg) 0) as [|_]; [lia|].
  rewrite off_rem_nonneg by (assumption || lia).
  cbv zeta. rewrite Hom, Hlm, Hc, Hb, Ha. cbn [Z.eqb negb orb].
  destruct (Z.ltb_spec offset 0) as [|_]; [lia|].
  destruct (Z.leb_spec (offset + size) (max_addr cfg - base_addr cfg));
    [cbn [negb]|lia].
  pose proof (rows_of_len size (erase_block_size cfg) ltac:(lia) ltac:(lia) Hlm)
    as Hrows.
  set (n := Z.to_nat (size / erase_block_size cfg)) in *.
  assert (Hn : (n <= fuel)%nat) by (subst n; lia).
  clearbody n. subst size.
  apply erase_loop_runs; (assumption || lia).
Qed.

Lemma read_rejects (cfg : ifx_flash_config) (hw : HW) (offset : Z)
    (dst : list byte) (len : Z) :
  region_ok cfg -> off_range ot offset -> u32 len -> len <> 0 ->
  ~ (0 <= offset /\ offset + len <= max_addr cfg - base_addr cfg) ->
  flash_ifx_read ot cfg hw offset dst len = Done (- EINVAL, dst).
Proof.
  intros Hcfg Hoff Hlen Hnz Hbad. unfold flash_ifx_read.
  destruct (Z.eqb_spec len 0) as [|_]; [contradiction|].
  destruct (Z.ltb_spec offset 0) as [|Ho]; [reflexivity|]. cbn [orb].
  destruct (bound_checks cfg offset len Hcfg Hoff Ho Hlen)
    as [[Hc _]|(Hc & Ha & Hb)]; rewrite Hc; [reflexivity|].
  cbv zeta. rewrite Hb.
  destruct (Z.leb_spec (offset + len) (max_addr cfg - base_addr cfg));
    [|reflexivity].
  exfalso. apply Hbad. tauto.
Qed.

Lemma read_accepts (cfg : ifx_flash_config) (hw : HW) (offset : Z)
    (dst : list byte) (len : Z) :
  region_ok cfg -> off_range ot offset -> 0 <= len ->
  0 <= offset -> offset + len <= max_addr cfg - base_addr cfg ->
  len <= Z.of_nat (length dst) ->
  flash_ifx_read ot cfg hw offset dst len =
  Done (0, memcpy dst (flash_bytes hw (base_addr cfg + offset) len)).
Proof.
  intros Hcfg Hoff Hpos Ho Hin Hdst. unfold flash_ifx_read.
  destruct (Z.eqb_spec len 0) as [->|Hnz]; [reflexivity|].
  destruct (Z.ltb_spec offset 0) as [|_]; [lia|]. cbn [orb].
  assert (Hlen : u32 len) by (unpack_region Hcfg; unfold u32; lia).
  destruct (bound_checks cfg offset len Hcfg Hoff Ho Hlen)
    as [[_ Hc]|(Hc & Ha & Hb)]; [lia|].
  cbv zeta. rewrite Hc, Hb, Ha.
  destruct (Z.leb_spec (offset + len) (max_addr cfg - base_addr cfg));
    [cbn [negb]|lia].
  destruct (Z.ltb_spec (Z.of_nat (length dst)) len); [lia|reflexivity].
Qed.
End EntryPoints.

(** ** Every call returns, with its calls inside the region *)

Section Totality.
Context {HW : Type} {prog : RowProgrammer HW}.
Variable ot : off_kind.

Lemma write_total (fuel : nat) (cfg : ifx_flash_config) (hw : HW)
    (offset data_ptr : Z) (data : list byte) (len : Z) :
  cfg_ok cfg -> off_range ot offset -> u32 len ->
  len <= Z.of_nat (length data) ->
  len / write_block_size cfg <= Z.of_nat fuel ->
  exists r hw' calls,
    flash_ifx_write ot fuel cfg hw offset data_ptr data len =
    Done (r, hw', calls) /\
    (r = 0 \/ r = - EINVAL \/ r = - EIO) /\
    Forall (call_in_region cfg (write_block_size cfg)) calls /\
    (len <> 0 -> r <> - EINVAL ->
     request_ok cfg (write_block_size cfg) offset len).
Proof.
  intros Hcfg Hoff Hlen Hdata Hfuel.
  destruct (Z.eq_dec len 0) as [->|Hnz].
  - exists 0, hw, []. split; [reflexivity|].
    split; [now left|]. split; [constructor|contradiction].
  - destruct (request_ok_dec cfg (write_block_size cfg) offset len) as [Hok|Hbad].
    + rewrite (write_accepts ot fuel cfg hw offset data_ptr data len)
        by (assumption || (unfold u32 in Hlen; lia)).
      set (cs := row_calls _ _ _ _).
      assert (Hcs : Forall (call_in_region cfg (write_block_size cfg)) cs).
      { subst cs. destruct Hok as (Ho & _ & Hlm & Hin). unpack_cfg Hcfg.
        apply row_calls_in_region; try lia.
        rewrite <- (rows_of_len len (write_block_size cfg)) by
          (assumption || (unfold u32 in Hlen; lia)).
        lia. }
      pose proof (program_rows_code cs hw) as Hcode.
      pose proof (program_rows_made _ cs hw Hcs) as Hmade.
      destruct (program_rows hw cs) as [[r hw'] made].
      exists r, hw', made. cbn [fst snd] in *. split; [reflexivity|].
      split; [tauto|]. split; [exact Hmade|]. intros _ _. exact Hok.
    + rewrite (write_rejects ot fuel cfg hw offset data_ptr data len)
        by (assumption || apply Hcfg).
      exists (- EINVAL), hw, []. split; [reflexivity|].
      split; [now right; left|]. split; [constructor|contradiction].
Qed.

Lemma erase_total (fuel : nat) (cfg : ifx_flash_config) (hw : HW)
    (offset size : Z) :
  cfg_ok cfg -> off_range ot offset -> u32 size ->
  size / erase_block_size cfg <= Z.of_nat fuel ->
  exists r hw' calls,
    flash_ifx_erase ot fuel cfg hw offset size = Done (r, hw', calls) /\
    (r = 0 \/ r = - EINVAL \/ r = - EIO) /\
    Forall (call_in_region cfg (erase_block_size cfg)) calls /\
    Forall (fun c => snd c = repeat xff (Z.to_nat (erase_block_size cfg))) calls /\
    (size <> 0 -> r <> - EINVAL ->
     request_ok cfg (erase_block_size cfg) offset size).
Proof.
  intros Hcfg Hoff Hlen Hfuel.
  destruct (Z.eq_dec size 0) as [->|Hnz].
  - exists 0, hw, []. split; [reflexivity|]. split; [now left|].
    split; [constructor|]. split; [constructor|contradiction].
  - destruct (request_ok_dec cfg (erase_block_size cfg) offset size) as [Hok|Hbad].
    + rewrite (erase_accepts ot fuel cfg hw offset size)
        by (assumption || (unfold u32 in Hlen; lia)).
      set (cs := erase_calls _ _ _).
      assert (Hcs : Forall (call_in_region cfg (erase_block_size cfg)) cs).
      { subst cs. destruct Hok as (Ho & _ & Hlm & Hin). unpack_cfg Hcfg.
        apply erase_calls_in_region; try lia.
        rewrite <- (rows_of_len size (erase_block_size cfg)) by
          (assumption || (unfold u32 in Hlen; lia)).
        lia. }
      assert (Hff : Forall (fun c => snd c =
                      repeat xff (Z.to_nat (erase_block_size cfg))) cs).
      { subst cs. unfold erase_calls. apply Forall_forall. intros c Hc.
        apply in_map_iff in Hc. destruct Hc as [k [<- _]]. reflexivity. }
      pose proof (program_rows_code cs hw) as Hcode.
      pose proof (program_rows_made _ cs hw Hcs) as Hmade.
      pose proof (program_rows_made _ cs hw Hff) as Hmadeff.
      destruct (program_rows hw cs) as [[r hw'] made].
      exists r, hw', made. cbn [fst snd] in *. split; [reflexivity|].
      split; [tauto|]. split; [exact Hmade|]. split; [exact Hmadeff|].
      intros _ _. exact Hok.
    + rewrite (erase_rejects ot fuel cfg hw offset size)
        by (assumption || apply Hcfg).
      exists (- EINVAL), hw, []. split; [reflexivity|]. split; [now right; left|].
      split; [constructor|]. split; [constructor|contradiction].
Qed.

Lemma read_total (cfg : ifx_flash_config) (hw : HW) (offset : Z)
    (dst : list byte) (len : Z) :
  region_ok cfg -> off_range ot offset -> u32 len ->
  len <= Z.of_nat (length dst) ->
  exists r out,
    flash_ifx_read ot cfg hw offset dst len = Done (r, out) /\
    (r = 0 \/ r = - EINVAL) /\
    (len <> 0 -> r <> - EINVAL ->
     0 <= offset /\ offset + len <= max_addr cfg - base_addr cfg).
Proof.
  intros Hcfg Hoff Hlen Hdst.
  destruct (Z.eq_dec len 0) as [->|Hnz].
  - exists 0, dst. split; [reflexivity|]. split; [now left|contradiction].
  - destruct (Z_le_dec 0 offset) as [Ho|Ho].
    + destruct (Z_le_dec (offset + len) (max_addr cfg - base_addr cfg))
        as [Hin|Hin].
      * rewrite read_accepts by (assumption || (unfold u32 in Hlen; lia)).
        eexists _, _. split; [reflexivity|]. split; [now left|]. intros _ _. lia.
      * rewrite read_rejects by (assumption || lia).
        eexists _, _. split; [reflexivity|]. split; [now right|contradiction].
    + rewrite read_rejects by (assumption || lia).
      eexists _, _. split; [reflexivity|]. split; [now right|contradiction].
Qed.
End Totality.

(** * The claims *)

Section Claims.
Context {HW : Type} {prog : RowProgrammer HW}.
Variable ot : off_kind.

(** C1: Region containment.  On a well-formed device every call returns;
    a request that validation accepted (non-zero length, not answered with
    [-EINVAL]) satisfies [base_addr <= base_addr + offset] and
    [base_addr + offset + length <= max_addr], for write, erase and read;
    and every invocation of [Cy_Flash_WriteRow] made by [flash_ifx_write] or
    [flash_ifx_erase] has [base_addr <= addr] and
    [addr + row_len <= max_addr]. *)
Theorem region_containment (cfg : ifx_flash_config) (hw : HW)
    (offset len : Z) :
  cfg_ok cfg -> off_range ot offset -> u32 len ->
  (forall (fuel : nat) (data_ptr : Z) (data : list byte),
     len <= Z.of_nat (length data) ->
     len / write_block_size cfg <= Z.of_nat fuel ->
     exists r hw' calls,
       flash_ifx_write ot fuel cfg hw offset data_ptr data len =
       Done (r, hw', calls) /\
       Forall (call_in_region cfg (write_block_size cfg)) calls /\
       (len <> 0 -> r <> - EINVAL ->
        base_addr cfg <= base_addr cfg + offset /\
        base_addr cfg + offset + len <= max_addr cfg)) /\
  (forall fuel : nat,
     len / erase_block_size cfg <= Z.of_nat fuel ->
     exists r hw' calls,
       flash_ifx_erase ot fuel cfg hw offset len = Done (r, hw', calls) /\
       Forall (call_in_region cfg (erase_block_size cfg)) calls /\
       (len <> 0 -> r <> - EINVAL ->
        base_addr cfg <= base_addr cfg + offset /\
        base_addr cfg + offset + len <= max_addr cfg)) /\
  (forall dst : list byte,
     len <= Z.of_nat (length dst) ->
     exists r out,
       flash_ifx_read ot cfg hw offset dst len = Done (r, out) /\
       (len <> 0 -> r <> - EINVAL ->
        base_addr cfg <= base_addr cfg + offset /\
        base_addr cfg + offset + len <= max_addr cfg)).
Proof.
  intros Hcfg Hoff Hlen. repeat split.
  - intros fuel data_ptr data Hdata Hfuel.
    destruct (write_total ot fuel cfg hw offset data_ptr data len)
      as (r & hw' & calls & Hrun & _ & Hcalls & Hok); try assumption.
    exists r, hw', calls. split; [exact Hrun|]. split; [exact Hcalls|].
    intros Hnz Hacc. destruct (Hok Hnz Hacc) as (? & _ & _ & ?). lia.
  - intros fuel Hfuel.
    destruct (erase_total ot fuel cfg hw offset len)
      as (r & hw' & calls & Hrun & _ & Hcalls & _ & Hok); try assumption.
    exists r, hw', calls. split; [exact Hrun|]. split; [exact Hcalls|].
    intros Hnz Hacc. destruct (Hok Hnz Hacc) as (? & _ & _ & ?). lia.
  - intros dst Hdst.
    destruct (read_total ot cfg hw offset dst len)
      as (r & out & Hrun & _ & Hok); try (assumption || apply Hcfg).
    exists r, out. split; [exact Hrun|].
    intros Hnz Hacc. destruct (Hok Hnz Hacc) as (? & ?). lia.
Qed.

(** C2: Out-of-range rejection.  For a region of size
    [S = max_addr - base_addr], every read, write or erase request with
    [length >= 1] and [offset + length > S] returns [-EINVAL], whatever the
    offset and the length that the C types can hold (so also where
    [base_addr + offset + length] exceeds 2^32), without any call of the
    primitive.  Write and erase divide by their block size before the
    bound checks, so it must not be zero. *)
Theorem out_of_range_rejected (cfg : ifx_flash_config) (hw : HW)
    (offset len : Z) :
  region_ok cfg -> off_range ot offset -> u32 len ->
  1 <= len -> offset + len > max_addr cfg - base_addr cfg ->
  (forall (fuel : nat) (data_ptr : Z) (data : list byte),
     block_nonzero (write_block_size cfg) ->
     flash_ifx_write ot fuel cfg hw offset data_ptr data len =
     Done (- EINVAL, hw, [])) /\
  (forall dst : list byte,
     flash_ifx_read ot cfg hw offset dst len = Done (- EINVAL, dst)) /\
  (forall fuel : nat,
     block_nonzero (erase_block_size cfg) ->
     flash_ifx_erase ot fuel cfg hw offset len = Done (- EINVAL, hw, [])).
Proof.
  intros Hcfg Hoff Hlen Hpos Hout. repeat split.
  - intros fuel data_ptr data Hblk.
    apply write_rejects; try assumption; [lia|].
    unfold request_ok. lia.
  - intros dst. apply read_rejects; try assumption; lia.
  - intros fuel Hblk. apply erase_rejects; try assumption; [lia|].
    unfold request_ok. lia.
Qed.

(** C5: Zero-length no-op.  For every operation and every offset, negative
    ones and ones beyond the region included, a length of zero returns 0
    at once: no call of the primitive, the hardware state and the
    destination buffer unchanged. *)
Theorem zero_length_noop (fuel : nat) (cfg : ifx_flash_config) (hw : HW)
    (offset data_ptr : Z) (data dst : list byte) :
  flash_ifx_write ot fuel cfg hw offset data_ptr data 0 = Done (0, hw, []) /\
  flash_ifx_read ot cfg hw offset dst 0 = Done (0, dst) /\
  flash_ifx_erase ot fuel cfg hw offset 0 = Done (0, hw, []).
Proof.
  unfold flash_ifx_write, flash_ifx_read, flash_ifx_erase.
  rewrite Z.eqb_refl. repeat split.
Qed.

(** C10: Return values.  On a well-formed device and for every request,
    [flash_ifx_read] returns 0 or [-EINVAL]; [flash_ifx_write] and
    [flash_ifx_erase] return 0, [-EINVAL] or [-EIO]; and
    [flash_ifx_get_size] returns 0 and stores [max_addr - base_addr]. *)
Theorem return_values (cfg : ifx_flash_config) (hw : HW) (offset len : Z) :
  cfg_ok cfg -> off_range ot offset -> u32 len ->
  (forall dst : list byte,
     len <= Z.of_nat (length dst) ->
     exists r out,
       flash_ifx_read ot cfg hw offset dst len = Done (r, out) /\
       (r = 0 \/ r = - EINVAL)) /\
  (forall (fuel : nat) (data_ptr : Z) (data : list byte),
     len <= Z.of_nat (length data) ->
     len / write_block_size cfg <= Z.of_nat fuel ->
     exists r hw' calls,
       flash_ifx_write ot fuel cfg hw offset data_ptr data len =
       Done (r, hw', calls) /\
       (r = 0 \/ r = - EINVAL \/ r = - EIO)) /\
  (forall fuel : nat,
     len / erase_block_size cfg <= Z.of_nat fuel ->
     exists r hw' calls,
       flash_ifx_erase ot fuel cfg hw offset len = Done (r, hw', calls) /\
       (r = 0 \/ r = - EINVAL \/ r = - EIO)) /\
  flash_ifx_get_size cfg = (0, max_addr cfg - base_addr cfg).
Proof.
  intros Hcfg Hoff Hlen. repeat split.
  - intros dst Hdst.
    destruct (read_total ot cfg hw offset dst len)
      as (r & out & Hrun & Hr & _); try (assumption || apply Hcfg).
    exists r, out. tauto.
  - intros fuel data_ptr data Hdata Hfuel.
    destruct (write_total ot fuel cfg hw offset data_ptr data len)
      as (r & hw' & calls & Hrun & Hr & _); try assumption.
    exists r, hw', calls. tauto.
  - intros fuel Hfuel.
    destruct (erase_total ot fuel cfg hw offset len)
      as (r & hw' & calls & Hrun & Hr & _); try assumption.
    exists r, hw', calls. tauto.
  - unfold flash_ifx_get_size. unpack_cfg Hcfg.
    rewrite wrap32_small by lia. reflexivity.
Qed.
(** C3 (amended): Alignment enforcement.  A write (an erase) of at least
    one byte whose offset or length is not a multiple of
    [write_block_size] ([erase_block_size]) returns [-EINVAL], in bounds or
    not, without any call of the primitive; a read that is in bounds
    succeeds whatever the alignment of its offset and length, and copies
    the bytes of the range. *)
Theorem alignment_enforced (cfg : ifx_flash_config) (hw : HW)
    (offset len : Z) :
  region_ok cfg -> off_range ot offset -> u32 len ->
  (block_nonzero (write_block_size cfg) -> len <> 0 ->
   offset mod write_block_size cfg <> 0 \/ len mod write_block_size cfg <> 0 ->
   forall (fuel : nat) (data_ptr : Z) (data : list byte),
     flash_ifx_write ot fuel cfg hw offset data_ptr data len =
     Done (- EINVAL, hw, [])) /\
  (block_nonzero (erase_block_size cfg) -> len <> 0 ->
   offset mod erase_block_size cfg <> 0 \/ len mod erase_block_size cfg <> 0 ->
   forall fuel : nat,
     flash_ifx_erase ot fuel cfg hw offset len = Done (- EINVAL, hw, [])) /\
  (0 <= offset -> offset + len <= max_addr cfg - base_addr cfg ->
   forall dst : list byte,
     len <= Z.of_nat (length dst) ->
     flash_ifx_read ot cfg hw offset dst len =
     Done (0, memcpy dst (flash_bytes hw (base_addr cfg + offset) len))).
Proof.
  intros Hcfg Hoff Hlen. repeat split.
  - intros Hblk Hnz Hmis fuel data_ptr data.
    apply write_rejects; try assumption.
    unfold request_ok. tauto.
  - intros Hblk Hnz Hmis fuel. apply erase_rejects; try assumption.
    unfold request_ok. tauto.
  - intros Ho Hin dst Hdst. apply read_accepts; try assumption.
    unfold u32 in Hlen. lia.
Qed.

(** C4 (amended): Negative-offset rejection.  For every operation, every
    negative offset and every length other than zero, with any buffer, the
    call returns [-EINVAL] (for erase: on a device whose erase block size
    is not zero, since the row size divides before the sign is tested). *)
Theorem negative_offset_rejected (cfg : ifx_flash_config) (hw : HW)
    (offset len : Z) :
  offset < 0 -> len <> 0 ->
  (forall (fuel : nat) (data_ptr : Z) (data : list byte),
     flash_ifx_write ot fuel cfg hw offset data_ptr data len =
     Done (- EINVAL, hw, [])) /\
  (forall dst : list byte,
     flash_ifx_read ot cfg hw offset dst len = Done (- EINVAL, dst)) /\
  (forall fuel : nat,
     wrap32 (erase_block_size cfg) <> 0 ->
     flash_ifx_erase ot fuel cfg hw offset len = Done (- EINVAL, hw, [])).
Proof.
  intros Hneg Hnz. repeat split.
  - intros fuel data_ptr data. unfold flash_ifx_write.
    destruct (Z.eqb_spec len 0) as [|_]; [contradiction|].
    destruct (Z.ltb_spec offset 0) as [_|]; [reflexivity|lia].
  - intros dst. unfold flash_ifx_read.
    destruct (Z.eqb_spec len 0) as [|_]; [contradiction|].
    destruct (Z.ltb_spec offset 0) as [_|]; [reflexivity|lia].
  - intros fuel Hrow. unfold flash_ifx_erase.
    destruct (Z.eqb_spec len 0) as [|_]; [contradiction|].
    destruct (Z.eqb_spec (wrap32 (erase_block_size cfg)) 0) as [|_];
      [contradiction|].
    destruct (off_rem ot offset (wrap32 (erase_block_size cfg)) =? 0);
      [|reflexivity].
    destruct (len mod wrap32 (erase_block_size cfg) =? 0); [|reflexivity].
    destruct (Z.ltb_spec offset 0) as [_|]; [reflexivity|lia].
Qed.

(** C6: Write/read round trip.  With a faithful simulator as the
    primitive, writing a buffer whose length is a positive multiple of
    [write_block_size] at a block-aligned, in-bounds offset and reading the
    same range back both succeed, and the bytes read are the bytes
    written. *)
Theorem write_read_roundtrip (fuel : nat) (cfg : ifx_flash_config) (hw : HW)
    (offset data_ptr : Z) (data dst : list byte) :
  cfg_ok cfg -> faithful -> off_range ot offset ->
  0 <= offset -> offset mod write_block_size cfg = 0 ->
  0 < Z.of_nat (length data) ->
  Z.of_nat (length data) mod write_block_size cfg = 0 ->
  offset + Z.of_nat (length data) <= max_addr cfg - base_addr cfg ->
  Z.of_nat (length data) / write_block_size cfg <= Z.of_nat fuel ->
  Z.of_nat (length data) <= Z.of_nat (length dst) ->
  exists hw' calls,
    flash_ifx_write ot fuel cfg hw offset data_ptr data
      (Z.of_nat (length data)) = Done (0, hw', calls) /\
    flash_ifx_read ot cfg hw' offset dst (Z.of_nat (length data)) =
    Done (0, data ++ skipn (length data) dst).
Proof.
  intros Hcfg Hf Hoff Ho Hom Hpos Hlm Hin Hfuel Hdst.
  rewrite write_accepts by (assumption || lia || (unfold request_ok; tauto)).
  set (cs := row_calls _ _ _ _).
  destruct (faithful_programmed Hf cs hw) as [hw' [Hp Hmem]].
  rewrite (program_rows_programmed hw cs hw' Hp).
  exists hw', cs. split; [reflexivity|].
  rewrite read_accepts by (assumption || lia || apply Hcfg).
  unfold memcpy. rewrite flash_bytes_eq; [reflexivity|].
  intros i Hi. rewrite Hmem. subst cs.
  pose proof Hcfg as Hcfg'. unpack_cfg Hcfg'.
  pose proof (rows_of_len (Z.of_nat (length data)) (write_block_size cfg)
                ltac:(lia) ltac:(lia) Hlm) as Hrows.
  rewrite store_rows_row_calls by lia.
  rewrite <- Hrows.
  destruct (Z.leb_spec (base_addr cfg + offset) (base_addr cfg + offset + Z.of_nat i));
    [|lia].
  destruct (Z.ltb_spec (base_addr cfg + offset + Z.of_nat i)
              (base_addr cfg + offset + Z.of_nat (length data))); [|lia].
  cbn [andb]. f_equal. lia.
Qed.

(** C8: Erase fills 0xFF.  An aligned, in-bounds erase of a positive
    multiple of [erase_block_size] returns, and every row it hands to the
    primitive is [erase_block_size] bytes of 0xFF; with a faithful
    simulator it returns 0 and reading the range back succeeds and yields
    only the declared erase value 0xFF. *)
Theorem erase_fills_ff (fuel : nat) (cfg : ifx_flash_config) (hw : HW)
    (offset size : Z) (dst : list byte) :
  cfg_ok cfg -> off_range ot offset ->
  0 <= offset -> offset mod erase_block_size cfg = 0 ->
  0 < size -> size mod erase_block_size cfg = 0 ->
  offset + size <= max_addr cfg - base_addr cfg ->
  size / erase_block_size cfg <= Z.of_nat fuel ->
  size <= Z.of_nat (length dst) ->
  exists r hw' calls,
    flash_ifx_erase ot fuel cfg hw offset size = Done (r, hw', calls) /\
    Forall (fun c => snd c = repeat xff (Z.to_nat (erase_block_size cfg)))
      calls /\
    (faithful ->
     r = 0 /\
     fp_erase_value (flash_parameters cfg) = xff /\
     flash_ifx_read ot cfg hw' offset dst size =
     Done (0, repeat (fp_erase_value (flash_parameters cfg)) (Z.to_nat size)
                ++ skipn (Z.to_nat size) dst)).
Proof.
  intros Hcfg Hoff Ho Hom Hpos Hlm Hin Hfuel Hdst.
  rewrite erase_accepts by (assumption || (unfold request_ok; tauto)).
  set (cs := erase_calls _ _ _).
  assert (Hff : Forall (fun c => snd c =
                  repeat xff (Z.to_nat (erase_block_size cfg))) cs).
  { subst cs. unfold erase_calls. apply Forall_forall. intros c Hc.
    apply in_map_iff in Hc. destruct Hc as [k [<- _]]. reflexivity. }
  pose proof (program_rows_made _ cs hw Hff) as Hmade.
  destruct (program_rows hw cs) as [[r hw'] made] eqn:Hrun.
  exists r, hw', made. split; [reflexivity|]. split; [exact Hmade|].
  intros Hf. destruct (faithful_programmed Hf cs hw) as [hw2 [Hp Hmem]].
  rewrite (program_rows_programmed hw cs hw2 Hp) in Hrun.
  injection Hrun as <- <- <-.
  split; [reflexivity|]. split; [reflexivity|].
  rewrite read_accepts by (assumption || lia || apply Hcfg).
  unfold memcpy. cbn [flash_parameters fp_erase_value].
  replace (flash_bytes hw2 (base_addr cfg + offset) size)
    with (repeat xff (Z.to_nat size));
    [now rewrite repeat_length|].
  symmetry.
  replace size with (Z.of_nat (length (repeat xff (Z.to_nat size)))) at 1
    by (rewrite repeat_length; lia).
  apply flash_bytes_eq. intros i Hi. rewrite repeat_length in Hi.
  rewrite Hmem. subst cs.
  pose proof Hcfg as Hcfg'. unpack_cfg Hcfg'.
  pose proof (rows_of_len size (erase_block_size cfg)
                ltac:(lia) ltac:(lia) Hlm) as Hrows.
  rewrite store_rows_erase_calls by lia.
  rewrite <- Hrows.
  destruct (Z.leb_spec (base_addr cfg + offset) (base_addr cfg + offset + Z.of_nat i));
    [|lia].
  destruct (Z.ltb_spec (base_addr cfg + offset + Z.of_nat i)
              (base_addr cfg + offset + size)); [|lia].
  cbn [andb]. rewrite (nth_indep _ x00 xff) by (rewrite repeat_length; lia).
  symmetry. apply nth_repeat.
Qed.
(** C7: Fail-fast on row failure.  In a validated write (erase) of more
    than [k] rows, if the primitive succeeds on the first [k] rows and
    fails on row [k + 1] (the claim's N), the call returns [-EIO]; the
    calls made are those of rows 1 to [k + 1] and no other, so the rows
    after the failing one are never handed to the primitive and nothing is
    rolled back; the hardware is left as the failing call left it. *)
Theorem fail_fast_on_row_failure (cfg : ifx_flash_config) (hw : HW)
    (offset len : Z) (k : nat) (hw1 hw2 : HW) :
  cfg_ok cfg -> off_range ot offset -> 0 < len ->
  (forall (fuel : nat) (data_ptr : Z) (data : list byte),
     request_ok cfg (write_block_size cfg) offset len ->
     len <= Z.of_nat (length data) ->
     len / write_block_size cfg <= Z.of_nat fuel ->
     Z.of_nat k < len / write_block_size cfg ->
     programmed hw
       (row_calls (write_block_size cfg) (base_addr cfg + offset) data k) hw1 ->
     Cy_Flash_WriteRow hw1
       (base_addr cfg + offset + Z.of_nat k * write_block_size cfg)
       (row_at (write_block_size cfg) data k) = (false, hw2) ->
     flash_ifx_write ot fuel cfg hw offset data_ptr data len =
     Done (- EIO, hw2,
           row_calls (write_block_size cfg) (base_addr cfg + offset) data
             (S k))) /\
  (forall fuel : nat,
     request_ok cfg (erase_block_size cfg) offset len ->
     len / erase_block_size cfg <= Z.of_nat fuel ->
     Z.of_nat k < len / erase_block_size cfg ->
     programmed hw
       (erase_calls (erase_block_size cfg) (base_addr cfg + offset) k) hw1 ->
     Cy_Flash_WriteRow hw1
       (base_addr cfg + offset + Z.of_nat k * erase_block_size cfg)
       (repeat xff (Z.to_nat (erase_block_size cfg))) = (false, hw2) ->
     flash_ifx_erase ot fuel cfg hw offset len =
     Done (- EIO, hw2,
           erase_calls (erase_block_size cfg) (base_addr cfg + offset) (S k))).
Proof.
  intros Hcfg Hoff Hpos. split.
  - intros fuel data_ptr data Hok Hdata Hfuel Hk Hprog Hfail.
    rewrite write_accepts by assumption. f_equal.
    unfold row_calls in *.
    rewrite (map_seq_split _ k (Z.to_nat (len / write_block_size cfg)))
      by lia.
    rewrite map_seq_snoc.
    now apply program_rows_first_failure with (hw1 := hw1).
  - intros fuel Hok Hfuel Hk Hprog Hfail.
    rewrite erase_accepts by assumption. f_equal.
    unfold erase_calls in *.
    rewrite (map_seq_split _ k (Z.to_nat (len / erase_block_size cfg)))
      by lia.
    rewrite map_seq_snoc.
    now apply program_rows_first_failure with (hw1 := hw1).
Qed.

(** C9: Staging-branch equivalence.  For a validated write request, the
    call with a 4-byte aligned source pointer (the zero-copy loop) and the
    call with a source pointer that is off a 4-byte boundary (the staged
    loop) return the same value, leave the same hardware state and hand
    the same (address, row) pairs to the primitive; the alignment tested
    once before the loop is the alignment of the source pointer at every
    iteration, so the zero-copy loop never reads through a misaligned
    pointer. *)
Theorem staging_equivalence (fuel : nat) (cfg : ifx_flash_config) (hw : HW)
    (offset p_aligned p_misaligned : Z) (data : list byte) (len : Z) :
  cfg_ok cfg -> off_range ot offset -> 0 < len ->
  request_ok cfg (write_block_size cfg) offset len ->
  len <= Z.of_nat (length data) ->
  len / write_block_size cfg <= Z.of_nat fuel ->
  Z.land p_aligned 3 = 0 -> Z.land p_misaligned 3 <> 0 ->
  exists r hw' calls,
    flash_ifx_write ot fuel cfg hw offset p_aligned data len =
    Done (r, hw', calls) /\
    flash_ifx_write ot fuel cfg hw offset p_misaligned data len =
    Done (r, hw', calls) /\
    write_loop_direct fuel (write_block_size cfg) hw (base_addr cfg + offset)
      p_aligned data len = Done (r, hw', calls) /\
    write_loop_staged fuel (write_block_size cfg) hw (base_addr cfg + offset)
      data len = Done (r, hw', calls) /\
    forall k : nat,
      Z.land (p_aligned + Z.of_nat k * write_block_size cfg) 3 = 0 /\
      Z.land (p_misaligned + Z.of_nat k * write_block_size cfg) 3 <> 0.
Proof.
  intros Hcfg Hoff Hpos Hok Hdata Hfuel Hal Hmis.
  rewrite !write_accepts by assumption.
  set (cs := row_calls _ _ _ _).
  destruct (program_rows hw cs) as [[r hw'] calls] eqn:Hrun.
  exists r, hw', calls. split; [reflexivity|]. split; [reflexivity|].
  rewrite <- !and_assoc. split;
    [|intros k; rewrite !alignment_invariant by apply Hcfg; tauto].
  destruct Hok as (Ho & _ & Hlm & Hin). unpack_cfg Hcfg.
  pose proof (rows_of_len len (write_block_size cfg) ltac:(lia) ltac:(lia) Hlm)
    as Hrows.
  subst cs. set (n := Z.to_nat (len / write_block_size cfg)) in *.
  assert (Hn : (n <= fuel)%nat) by (subst n; lia).
  clearbody n. subst len. rewrite <- Hrun. split.
  - apply write_loop_direct_runs; (assumption || lia).
  - apply write_loop_staged_runs; (assumption || lia).
Qed.
End Claims.

(** * The claims on a concrete device *)

Lemma cfg_demo_ok : cfg_ok cfg_demo.
Proof.
  unfold cfg_ok, region_ok, block_ok, block_nonzero, u32. cbn.
  repeat split; try lia; reflexivity.
Qed.

Lemma cfg_top_ok : cfg_ok cfg_top.
Proof.
  unfold cfg_ok, region_ok, block_ok, block_nonzero, u32. cbn.
  repeat split; try lia; reflexivity.
Qed.

Lemma Simulator_faithful : @faithful (Z -> byte) Simulator.
Proof. intros hw addr row. eexists. split; reflexivity. Qed.

Lemma off_range_small (ot : off_kind) (z : Z) :
  - 2 ^ 31 <= z < 2 ^ 31 -> off_range ot z.
Proof. unfold off_range. destruct ot; cbn; lia. Qed.

(** The scenario of the specification: region [0x1000, 0x2000), rows of
    256 bytes. *)
Example scenario_write_ok :
  exists hw' calls,
    flash_ifx_write Off32 1 cfg_demo mem_demo 0 0 (repeat xaa 256) 256 =
    Done (0, hw', calls).
Proof. eexists _, _. reflexivity. Qed.

Example scenario_get_size : flash_ifx_get_size cfg_demo = (0, 0x1000).
Proof. reflexivity. Qed.

Example scenario_unaligned_offset :
  flash_ifx_write Off32 1 cfg_demo mem_demo 100 0 (repeat xaa 256) 256 =
  Done (- EINVAL, mem_demo, []).
Proof. reflexivity. Qed.

Example scenario_at_region_end :
  flash_ifx_write Off32 1 cfg_demo mem_demo 0x1000 0 (repeat xaa 256) 256 =
  Done (- EINVAL, mem_demo, []).
Proof. reflexivity. Qed.

(** C1, at a two-row write in the middle of the region. *)
Lemma region_containment_witness :
  exists r hw' calls,
    flash_ifx_write Off32 2 cfg_demo mem_demo 256 0 (repeat xaa 512) 512 =
    Done (r, hw', calls) /\
    Forall (call_in_region cfg_demo (write_block_size cfg_demo)) calls /\
    (512 <> 0 -> r <> - EINVAL ->
     base_addr cfg_demo <= base_addr cfg_demo + 256 /\
     base_addr cfg_demo + 256 + 512 <= max_addr cfg_demo).
Proof.
  refine (proj1 (region_containment Off32 cfg_demo mem_demo 256 512
                   cfg_demo_ok _ _) 2%nat 0 (repeat xaa 512) _ _).
  - apply off_range_small. lia.
  - unfold u32. lia.
  - rewrite repeat_length. lia.
  - cbn. lia.
Defined.

(** C2, at the boundary case [offset = S], [length = 1], and at a request
    whose end [base_addr + offset + length] lies beyond 2^32. *)
Lemma out_of_range_rejected_witness :
  (flash_ifx_write Off32 1 cfg_demo mem_demo 0x1000 0 [xaa] 1 =
   Done (- EINVAL, mem_demo, []) /\
   flash_ifx_read Off32 cfg_demo mem_demo 0x1000 [x00] 1 =
   Done (- EINVAL, [x00]) /\
   flash_ifx_erase Off32 1 cfg_demo mem_demo 0x1000 1 =
   Done (- EINVAL, mem_demo, [])) /\
  (flash_ifx_write Off32 1 cfg_top mem_demo 0xE00 0 [xaa] 0xFFFFFF00 =
   Done (- EINVAL, mem_demo, []) /\
   flash_ifx_read Off32 cfg_top mem_demo 0xE00 [x00] 0xFFFFFF00 =
   Done (- EINVAL, [x00]) /\
   flash_ifx_erase Off32 1 cfg_top mem_demo 0xE00 0xFFFFFF00 =
   Done (- EINVAL, mem_demo, [])).
Proof.
  split.
  - destruct (out_of_range_rejected Off32 cfg_demo mem_demo 0x1000 1)
      as (Hw & Hr & He).
    + exact (proj1 cfg_demo_ok).
    + apply off_range_small. lia.
    + unfold u32. lia.
    + lia.
    + cbn. lia.
    + split; [apply Hw, cfg_demo_ok|]. split; [apply Hr|apply He, cfg_demo_ok].
  - destruct (out_of_range_rejected Off32 cfg_top mem_demo 0xE00 0xFFFFFF00)
      as (Hw & Hr & He).
    + exact (proj1 cfg_top_ok).
    + apply off_range_small. lia.
    + unfold u32. lia.
    + lia.
    + cbn. lia.
    + split; [apply Hw, cfg_top_ok|]. split; [apply Hr|apply He, cfg_top_ok].
Defined.

(** The claim C3 as stated fails on a zero-length request: an offset that
    is not a multiple of the block size is answered with 0. *)
Lemma unaligned_zero_length_accepted :
  100 mod write_block_size cfg_demo <> 0 /\
  flash_ifx_write Off32 0 cfg_demo mem_demo 100 0 [] 0 <>
  Done (- EINVAL, mem_demo, []) /\
  flash_ifx_write Off32 0 cfg_demo mem_demo 100 0 [] 0 = Done (0, mem_demo, []) /\
  100 mod erase_block_size cfg_demo <> 0 /\
  flash_ifx_erase Off32 0 cfg_demo mem_demo 100 0 = Done (0, mem_demo, []).
Proof.
  split; [cbn; discriminate|]. split; [cbn; discriminate|].
  split; [reflexivity|]. split; [cbn; discriminate|reflexivity].
Qed.

(** C3 (amended), at the scenario's unaligned write and at an unaligned
    read. *)
Lemma alignment_enforced_witness :
  flash_ifx_write Off32 1 cfg_demo mem_demo 100 0 (repeat xaa 256) 256 =
  Done (- EINVAL, mem_demo, []) /\
  flash_ifx_erase Off32 1 cfg_demo mem_demo 100 256 =
  Done (- EINVAL, mem_demo, []) /\
  flash_ifx_read Off32 cfg_demo mem_demo 101 [xaa; xaa; xaa; xaa] 3 =
  Done (0, [x00; x00; x00; xaa]).
Proof.
  destruct (alignment_enforced Off32 cfg_demo mem_demo 100 256)
    as (Hw & He & _).
  - exact (proj1 cfg_demo_ok).
  - apply off_range_small. lia.
  - unfold u32. lia.
  - split; [apply Hw; [apply cfg_demo_ok|lia|left; cbn; lia]|].
    split; [apply He; [apply cfg_demo_ok|lia|left; cbn; lia]|].
    exact (proj2 (proj2 (alignment_enforced Off32 cfg_demo mem_demo 101 3
                           (proj1 cfg_demo_ok)
                           (off_range_small Off32 101 ltac:(lia))
                           ltac:(unfold u32; lia)))
             ltac:(lia) ltac:(cbn; lia) [xaa; xaa; xaa; xaa] ltac:(cbn; lia)).
Defined.

(** The claim C4 as stated fails on a zero-length request: a negative
    offset is answered with 0 by each of the three operations. *)
Lemma negative_offset_zero_length_accepted :
  -1 < 0 /\
  flash_ifx_read Off32 cfg_demo mem_demo (-1) [] 0 <> Done (- EINVAL, []) /\
  flash_ifx_read Off32 cfg_demo mem_demo (-1) [] 0 = Done (0, []) /\
  flash_ifx_write Off32 0 cfg_demo mem_demo (-1) 0 [] 0 = Done (0, mem_demo, []) /\
  flash_ifx_erase Off32 0 cfg_demo mem_demo (-1) 0 = Done (0, mem_demo, []).
Proof.
  split; [lia|]. split; [cbn; discriminate|]. repeat split.
Qed.

(** C4 (amended), at offset -1 and length 1. *)
Lemma negative_offset_rejected_witness :
  flash_ifx_write Off64 1 cfg_demo mem_demo (-1) 0 [xaa] 1 =
  Done (- EINVAL, mem_demo, []) /\
  flash_ifx_read Off64 cfg_demo mem_demo (-1) [x00] 1 =
  Done (- EINVAL, [x00]) /\
  flash_ifx_erase Off64 1 cfg_demo mem_demo (-1) 1 =
  Done (- EINVAL, mem_demo, []).
Proof.
  destruct (negative_offset_rejected Off64 cfg_demo mem_demo (-1) 1)
    as (Hw & Hr & He); try lia.
  split; [apply Hw|]. split; [apply Hr|]. apply He. cbn. discriminate.
Defined.

(** C6, at one row of 0xAA written at offset 0 through a misaligned
    pointer. *)
Lemma write_read_roundtrip_witness :
  exists hw' calls,
    flash_ifx_write Off32 1 cfg_demo mem_demo 0 1 (repeat xaa 256)
      (Z.of_nat (length (repeat xaa 256))) = Done (0, hw', calls) /\
    flash_ifx_read Off32 cfg_demo hw' 0 (repeat x00 300)
      (Z.of_nat (length (repeat xaa 256))) =
    Done (0, repeat xaa 256 ++ skipn (length (repeat xaa 256)) (repeat x00 300)).
Proof.
  apply (write_read_roundtrip Off32 1 cfg_demo mem_demo 0 1
           (repeat xaa 256) (repeat x00 300) cfg_demo_ok Simulator_faithful
           (off_range_small Off32 0 ltac:(lia)));
    rewrite ?repeat_length; cbn; lia.
Defined.

(** C7, with the simulator that programs one row and then fails: a
    three-row write (erase) stops at its second row. *)
Lemma fail_fast_on_row_failure_witness :
  flash_ifx_write (prog := FailingSimulator) Off32 3 cfg_demo
    (1%nat, mem_demo) 0 1
    (repeat xaa 256 ++ repeat xbb 256 ++ repeat xcc 256) 768 =
  Done (- EIO, (0%nat, store_row mem_demo 0x1000 (repeat xaa 256)),
        [(0x1000, repeat xaa 256); (0x1100, repeat xbb 256)]) /\
  flash_ifx_erase (prog := FailingSimulator) Off32 3 cfg_demo
    (1%nat, mem_demo) 0 768 =
  Done (- EIO, (0%nat, store_row mem_demo 0x1000 (repeat xff 256)),
        [(0x1000, repeat xff 256); (0x1100, repeat xff 256)]).
Proof.
  split.
  - apply (proj1 (fail_fast_on_row_failure (prog := FailingSimulator) Off32
                    cfg_demo (1%nat, mem_demo) 0 768 1
                    (0%nat, store_row mem_demo 0x1000 (repeat xaa 256))
                    (0%nat, store_row mem_demo 0x1000 (repeat xaa 256))
                    cfg_demo_ok (off_range_small Off32 0 ltac:(lia))
                    ltac:(lia))
             3%nat 1
             (repeat xaa 256 ++ repeat xbb 256 ++ repeat xcc 256)).
    + unfold request_ok. cbn. lia.
    + rewrite !length_app, !repeat_length. lia.
    + cbn. lia.
    + cbn. lia.
    + apply (programmed_cons (prog := FailingSimulator) (1%nat, mem_demo)
               (0x1000, repeat xaa 256)
               (0%nat, store_row mem_demo 0x1000 (repeat xaa 256)) []);
        [reflexivity|constructor].
    + reflexivity.
  - apply (proj2 (fail_fast_on_row_failure (prog := FailingSimulator) Off32
                    cfg_demo (1%nat, mem_demo) 0 768 1
                    (0%nat, store_row mem_demo 0x1000 (repeat xff 256))
                    (0%nat, store_row mem_demo 0x1000 (repeat xff 256))
                    cfg_demo_ok (off_range_small Off32 0 ltac:(lia))
                    ltac:(lia))
             3%nat).
    + unfold request_ok. cbn. lia.
    + cbn. lia.
    + cbn. lia.
    + apply (programmed_cons (prog := FailingSimulator) (1%nat, mem_demo)
               (0x1000, repeat xff 256)
               (0%nat, store_row mem_demo 0x1000 (repeat xff 256)) []);
        [reflexivity|constructor].
    + reflexivity.
Defined.

(** C8, at the erase of the second row of the region. *)
Lemma erase_fills_ff_witness :
  exists r hw' calls,
    flash_ifx_erase Off32 1 cfg_demo mem_demo 256 256 = Done (r, hw', calls) /\
    Forall (fun c => snd c = repeat xff (Z.to_nat (erase_block_size cfg_demo)))
      calls /\
    (@faithful (Z -> byte) Simulator ->
     r = 0 /\
     fp_erase_value (flash_parameters cfg_demo) = xff /\
     flash_ifx_read Off32 cfg_demo hw' 256 (repeat x00 256) 256 =
     Done (0, repeat (fp_erase_value (flash_parameters cfg_demo))
                (Z.to_nat 256) ++ skipn (Z.to_nat 256) (repeat x00 256))).
Proof.
  apply (erase_fills_ff Off32 1 cfg_demo mem_demo 256 256 (repeat x00 256)
           cfg_demo_ok (off_range_small Off32 256 ltac:(lia)));
    rewrite ?repeat_length; cbn; lia.
Defined.

(** C9, at a two-row write from an aligned and from a misaligned pointer. *)
Lemma staging_equivalence_witness :
  exists r hw' calls,
    flash_ifx_write Off32 2 cfg_demo mem_demo 0 0x20000000 (repeat xaa 512) 512 =
    Done (r, hw', calls) /\
    flash_ifx_write Off32 2 cfg_demo mem_demo 0 0x20000003 (repeat xaa 512) 512 =
    Done (r, hw', calls) /\
    write_loop_direct 2 (write_block_size cfg_demo) mem_demo
      (base_addr cfg_demo + 0) 0x20000000 (repeat xaa 512) 512 =
    Done (r, hw', calls) /\
    write_loop_staged 2 (write_block_size cfg_demo) mem_demo
      (base_addr cfg_demo + 0) (repeat xaa 512) 512 = Done (r, hw', calls) /\
    forall k : nat,
      Z.land (0x20000000 + Z.of_nat k * write_block_size cfg_demo) 3 = 0 /\
      Z.land (0x20000003 + Z.of_nat k * write_block_size cfg_demo) 3 <> 0.
Proof.
  apply (staging_equivalence Off32 2 cfg_demo mem_demo 0 0x20000000 0x20000003
           (repeat xaa 512) 512 cfg_demo_ok
           (off_range_small Off32 0 ltac:(lia))).
  - lia.
  - unfold request_ok. cbn. lia.
  - rewrite repeat_length. lia.
  - cbn. lia.
  - reflexivity.
  - cbn. discriminate.
Defined.

(** C10, at a one-row request. *)
Lemma return_values_witness :
  (exists r out,
     flash_ifx_read Off32 cfg_demo mem_demo 0 (repeat x00 256) 256 =
     Done (r, out) /\ (r = 0 \/ r = - EINVAL)) /\
  (exists r hw' calls,
     flash_ifx_write Off32 1 cfg_demo mem_demo 0 0 (repeat xaa 256) 256 =
     Done (r, hw', calls) /\ (r = 0 \/ r = - EINVAL \/ r = - EIO)) /\
  (exists r hw' calls,
     flash_ifx_erase Off32 1 cfg_demo mem_demo 0 256 = Done (r, hw', calls) /\
     (r = 0 \/ r = - EINVAL \/ r = - EIO)) /\
  flash_ifx_get_size cfg_demo = (0, max_addr cfg_demo - base_addr cfg_demo).
Proof.
  destruct (return_values Off32 cfg_demo mem_demo 0 256 cfg_demo_ok
              (off_range_small Off32 0 ltac:(lia)) ltac:(unfold u32; lia))
    as (Hr & Hw & He & Hs).
  split; [apply Hr; rewrite repeat_length; lia|].
  split; [apply Hw; [rewrite repeat_length; lia|cbn; lia]|].
  split; [apply He; cbn; lia|exact Hs].
Defined.

(** * Further properties of the driver *)

(** ** Lists of calls, once more *)

Lemma firstn_map_seq {A : Type} (f : nat -> A) (k n : nat) :
  (k <= n)%nat -> firstn k (map f (seq 0 n)) = map f (seq 0 k).
Proof.
  intros Hk. rewrite firstn_map. f_equal.
  replace n with (k + (n - k))%nat by lia.
  rewrite seq_app, firstn_app, length_seq, Nat.sub_diag.
  cbn [firstn]. rewrite app_nil_r. apply firstn_all2. rewrite length_seq. lia.
Qed.

Lemma nth_map_seq {A : Type} (f : nat -> A) (k n : nat) (d : A) :
  (k < n)%nat -> nth k (map f (seq 0 n)) d = f k.
Proof.
  intros Hk. rewrite (nth_indep _ d (f 0%nat))
    by (rewrite length_map, length_seq; lia).
  rewrite map_nth, seq_nth by lia. reflexivity.
Qed.

Lemma row_calls_one (row_len addr : Z) (data : list byte) :
  Z.of_nat (length data) = row_len ->
  row_calls row_len addr data 1 = [(addr, data)].
Proof.
  intros Hlen. unfold row_calls, row_at. cbn [seq map Nat.mul skipn Z.of_nat].
  rewrite Z.mul_0_l, Z.add_0_r, firstn_all2 by lia. reflexivity.
Qed.

Section Runs.
Context {HW : Type} {prog : RowProgrammer HW}.

(** A run that returns 0 made every call; a run that returns [-EIO] stopped
    at the first call that failed. *)
Lemma program_rows_inv (cs : list row_call) :
  forall (hw : HW) (r : Z) (hw' : HW) (made : list row_call),
    program_rows hw cs = (r, hw', made) ->
    (r = 0 /\ made = cs /\ programmed hw cs hw') \/
    (r = - EIO /\
     exists (k : nat) (hw1 : HW),
       (k < length cs)%nat /\ made = firstn (S k) cs /\
       programmed hw (firstn k cs) hw1 /\
       Cy_Flash_WriteRow hw1 (fst (nth k cs (0, []))) (snd (nth k cs (0, [])))
       = (false, hw')).
Proof.
  induction cs as [|c cs IH]; intros hw r hw' made Hrun; cbn [program_rows] in Hrun.
  - injection Hrun as <- <- <-. left. repeat split. constructor.
  - destruct (Cy_Flash_WriteRow hw (fst c) (snd c)) as [status hw1] eqn:Hc.
    destruct status; cbn [negb] in Hrun.
    + destruct (program_rows hw1 cs) as [[r1 hw2] made1] eqn:Hrest.
      injection Hrun as <- <- <-.
      destruct (IH hw1 r1 hw2 made1 Hrest)
        as [(Hr & Hm & Hp)|(Hr & k & hwk & Hk & Hm & Hp & Hfail)].
      * left. subst. repeat split. econstructor; eassumption.
      * right. split; [assumption|]. exists (S k), hwk.
        cbn [length firstn nth]. subst made1.
        repeat split; try assumption; [lia|].
        econstructor; eassumption.
    + injection Hrun as <- <- <-. right. split; [reflexivity|].
      exists 0%nat, hw. cbn [length firstn nth].
      repeat split; try assumption; [lia|constructor].
Qed.

Lemma program_rows_made_nonempty (c : row_call) (cs : list row_call) (hw : HW)
    (r : Z) (hw' : HW) (made : list row_call) :
  program_rows hw (c :: cs) = (r, hw', made) ->
  made <> [] /\ (r = 0 \/ r = - EIO).
Proof.
  intros Hrun. pose proof (program_rows_code (c :: cs) hw) as Hcode.
  rewrite Hrun in Hcode. cbn [fst] in Hcode. split; [|exact Hcode].
  cbn [program_rows] in Hrun.
  destruct (Cy_Flash_WriteRow hw (fst c) (snd c)) as [status hw1].
  destruct status; cbn [negb] in Hrun.
  - destruct (program_rows hw1 cs) as [[r1 hw2] made1].
    injection Hrun as <- <- <-. discriminate.
  - injection Hrun as <- <- <-. discriminate.
Qed.
End Runs.

(** ** Configuration, size and page layout *)

Ltac unpack_dt H :=
  let Ha := fresh "Haddr" in
  let Hf := fresh "Hfits" in
  let Hs := fresh "Hsize" in
  let Hm := fresh "Hmaxgt" in
  let Hw := fresh "Hwbs" in
  let Hw4 := fresh "Hwbs4" in
  let He := fresh "Hebs" in
  let He4 := fresh "Hebs4" in
  destruct H as (Ha & Hf & Hs & (Hw & Hw4) & (He & He4));
  unfold build_asserts, IFX_FLASH_MAX, IFX_FLASH_BASE, IFX_FLASH_SIZE in Hs;
  apply andb_true_iff in Hs; destruct Hs as [Hs Hm];
  apply Z.ltb_lt in Hs; apply Z.ltb_lt in Hm;
  unfold block_nonzero in Hw, He.

Lemma dt_cfg_ok (dt : flash_node) :
  dt_ok dt -> cfg_ok (ifx_flash_config_parameters dt).
Proof.
  intros Hdt. unpack_dt Hdt.
  unfold cfg_ok, region_ok, block_ok, block_nonzero, u32,
    ifx_flash_config_parameters.
  cbn [base_addr max_addr write_block_size erase_block_size].
  rewrite !wrap32_small by lia. repeat split; lia.
Qed.

Lemma dt_region_size (dt : flash_node) :
  dt_ok dt ->
  max_addr (ifx_flash_config_parameters dt)
  - base_addr (ifx_flash_config_parameters dt) = DT_REG_SIZE dt.
Proof.
  intros Hdt. unpack_dt Hdt. unfold ifx_flash_config_parameters.
  cbn [base_addr max_addr]. rewrite !wrap32_small by lia. lia.
Qed.

Lemma page_layout_values (dt : flash_node) :
  dt_ok dt ->
  pages_size (fst (flash_ifx_page_layout dt)) = DT_PROP_write_block_size dt /\
  pages_count (fst (flash_ifx_page_layout dt)) =
  DT_REG_SIZE dt / DT_PROP_write_block_size dt /\
  write_block_size (ifx_flash_config_parameters dt) =
  DT_PROP_write_block_size dt.
Proof.
  intros Hdt. unpack_dt Hdt.
  unfold flash_ifx_page_layout, flash_pages_layout, ifx_flash_config_parameters.
  cbn [fst snd pages_count pages_size write_block_size].
  rewrite Z.quot_div_nonneg by lia.
  rewrite (wrap32_small (DT_PROP_write_block_size dt)) by lia.
  repeat split. apply wrap32_small. split.
  - apply Z.div_pos; lia.
  - apply Z.div_lt_upper_bound; nia.
Qed.

(** X1: the configuration built from a devicetree node that passes the
    [BUILD_ASSERT]s is well formed, and [flash_ifx_get_size] reports the
    size of the node's [reg] property. *)
Theorem devicetree_config_size (dt : flash_node) :
  dt_ok dt ->
  cfg_ok (ifx_flash_config_parameters dt) /\
  flash_ifx_get_size (ifx_flash_config_parameters dt) = (0, DT_REG_SIZE dt).
Proof.
  intros Hdt. split; [now apply dt_cfg_ok|].
  unfold flash_ifx_get_size. rewrite dt_region_size by assumption.
  unpack_dt Hdt. rewrite wrap32_small by lia. reflexivity.
Qed.

(** X2: the page layout is one entry of [pages_count] pages of one write
    block each; the pages lie inside the region and leave less than one
    page of it uncovered, nothing when the size is a multiple of the write
    block. *)
Theorem page_layout_covers_region (dt : flash_node) :
  dt_ok dt ->
  snd (flash_ifx_page_layout dt) = 1 /\
  pages_size (fst (flash_ifx_page_layout dt)) =
  write_block_size (ifx_flash_config_parameters dt) /\
  0 <= pages_count (fst (flash_ifx_page_layout dt)) /\
  pages_count (fst (flash_ifx_page_layout dt)) *
  pages_size (fst (flash_ifx_page_layout dt)) <=
  snd (flash_ifx_get_size (ifx_flash_config_parameters dt)) /\
  snd (flash_ifx_get_size (ifx_flash_config_parameters dt)) <
  (pages_count (fst (flash_ifx_page_layout dt)) + 1) *
  pages_size (fst (flash_ifx_page_layout dt)) /\
  (DT_REG_SIZE dt mod DT_PROP_write_block_size dt = 0 ->
   pages_count (fst (flash_ifx_page_layout dt)) *
   pages_size (fst (flash_ifx_page_layout dt)) =
   snd (flash_ifx_get_size (ifx_flash_config_parameters dt))).
Proof.
  intros Hdt.
  destruct (page_layout_values dt Hdt) as (Hps & Hcnt & Hwbs).
  rewrite Hps, Hcnt, Hwbs.
  unfold flash_ifx_get_size. rewrite dt_region_size by assumption.
  unpack_dt Hdt. rewrite wrap32_small by lia. cbn [snd].
  pose proof (Z.mul_div_le (DT_REG_SIZE dt) (DT_PROP_write_block_size dt)
                ltac:(lia)) as Hle.
  pose proof (Z.mul_succ_div_gt (DT_REG_SIZE dt) (DT_PROP_write_block_size dt)
                ltac:(lia)) as Hgt.
  assert (Hq : 0 <= DT_REG_SIZE dt / DT_PROP_write_block_size dt)
    by (apply Z.div_pos; lia).
  repeat split; try lia.
  intros Hmod.
  pose proof (Z.div_mod (DT_REG_SIZE dt) (DT_PROP_write_block_size dt)
                ltac:(lia)). lia.
Qed.

Section Layout.
Context {HW : Type} {prog : RowProgrammer HW}.
Variable ot : off_kind.

(** X3: every page of the layout can be written: a write of one page at
    the offset of page [i] passes validation and is exactly one call of
    the primitive, at the address of the page and with the caller's
    bytes; it returns 0 or [-EIO] as that call decides. *)
Theorem layout_page_is_one_row (dt : flash_node) (i : Z) (fuel : nat)
    (hw : HW) (data_ptr : Z) (data : list byte) :
  dt_ok dt ->
  0 <= i < pages_count (fst (flash_ifx_page_layout dt)) ->
  off_range ot (i * pages_size (fst (flash_ifx_page_layout dt))) ->
  Z.of_nat (length data) = pages_size (fst (flash_ifx_page_layout dt)) ->
  (1 <= fuel)%nat ->
  exists r hw',
    flash_ifx_write ot fuel (ifx_flash_config_parameters dt) hw
      (i * pages_size (fst (flash_ifx_page_layout dt))) data_ptr data
      (pages_size (fst (flash_ifx_page_layout dt))) =
    Done (r, hw',
          [(base_addr (ifx_flash_config_parameters dt)
            + i * pages_size (fst (flash_ifx_page_layout dt)), data)]) /\
    Cy_Flash_WriteRow hw
      (base_addr (ifx_flash_config_parameters dt)
       + i * pages_size (fst (flash_ifx_page_layout dt))) data =
    (r =? 0, hw') /\
    (r = 0 \/ r = - EIO).
Proof.
  intros Hdt Hi Hoff Hdata Hfuel.
  destruct (page_layout_values dt Hdt) as (Hps & Hcnt & Hwbs).
  pose proof (dt_cfg_ok dt Hdt) as Hcfg.
  pose proof (dt_region_size dt Hdt) as Hsz.
  rewrite Hps, Hcnt in *.
  unpack_dt Hdt.
  set (cfg := ifx_flash_config_parameters dt) in *.
  set (ps := DT_PROP_write_block_size dt) in *.
  pose proof (Z.mul_div_le (DT_REG_SIZE dt) ps ltac:(lia)) as Hle.
  rewrite write_accepts; try assumption; try lia; rewrite ?Hwbs.
  - rewrite Z.div_same by lia. change (Z.to_nat 1) with 1%nat.
    rewrite row_calls_one by assumption.
    cbn [program_rows fst snd].
    destruct (Cy_Flash_WriteRow hw (base_addr cfg + i * ps) data)
      as [status hw1].
    destruct status; cbn [negb]; eexists _, _;
      (split; [reflexivity|split; [reflexivity|]]); [now left|now right].
  - unfold request_ok.
    rewrite Z.mod_mul, Z.mod_same by lia. repeat split; try lia; nia.
  - rewrite Z.div_same by lia. lia.
Qed.
End Layout.

(** ** What the return value tells *)

Section ReturnValue.
Context {HW : Type} {prog : RowProgrammer HW}.
Variable ot : off_kind.

Lemma rows_at_least_one (len b : Z) :
  0 < b -> 0 < len -> len mod b = 0 ->
  exists n : nat, Z.to_nat (len / b) = S n.
Proof.
  intros Hb Hlen Hmod.
  pose proof (rows_of_len len b Hb ltac:(lia) Hmod) as Hrows.
  destruct (Z.to_nat (len / b)) as [|n]; [lia|]. now exists n.
Qed.

(** X4: validation is exact.  For a length other than zero, write and
    erase return [-EINVAL] exactly when the offset is negative, the offset
    or the length is not a multiple of the block size, or the range ends
    beyond the region; read returns [-EINVAL] exactly when the offset is
    negative or the range ends beyond the region. *)
Theorem validation_exact (cfg : ifx_flash_config) (hw : HW) (offset len : Z) :
  cfg_ok cfg -> off_range ot offset -> u32 len -> len <> 0 ->
  (forall (fuel : nat) (data_ptr : Z) (data : list byte),
     len <= Z.of_nat (length data) ->
     len / write_block_size cfg <= Z.of_nat fuel ->
     exists r hw' calls,
       flash_ifx_write ot fuel cfg hw offset data_ptr data len =
       Done (r, hw', calls) /\
       (r = - EINVAL <-> ~ request_ok cfg (write_block_size cfg) offset len)) /\
  (forall fuel : nat,
     len / erase_block_size cfg <= Z.of_nat fuel ->
     exists r hw' calls,
       flash_ifx_erase ot fuel cfg hw offset len = Done (r, hw', calls) /\
       (r = - EINVAL <-> ~ request_ok cfg (erase_block_size cfg) offset len)) /\
  (forall dst : list byte,
     len <= Z.of_nat (length dst) ->
     exists r out,
       flash_ifx_read ot cfg hw offset dst len = Done (r, out) /\
       (r = - EINVAL <->
        ~ (0 <= offset /\ offset + len <= max_addr cfg - base_addr cfg))).
Proof.
  intros Hcfg Hoff Hlen Hnz.
  assert (Hpos : 0 < len) by (unfold u32 in Hlen; lia).
  split; [|split].
  - intros fuel data_ptr data Hdata Hfuel.
    destruct (request_ok_dec cfg (write_block_size cfg) offset len) as [Hok|Hbad].
    + rewrite write_accepts by assumption.
      pose proof (program_rows_code
                    (row_calls (write_block_size cfg) (base_addr cfg + offset)
                       data (Z.to_nat (len / write_block_size cfg))) hw) as Hcode.
      destruct (program_rows hw _) as [[r hw'] made]. cbn [fst] in Hcode.
      exists r, hw', made. split; [reflexivity|].
      split; [intros ->; destruct Hcode; discriminate|contradiction].
    + rewrite write_rejects by (assumption || apply Hcfg).
      exists (- EINVAL), hw, []. split; [reflexivity|]. tauto.
  - intros fuel Hfuel.
    destruct (request_ok_dec cfg (erase_block_size cfg) offset len) as [Hok|Hbad].
    + rewrite erase_accepts by assumption.
      pose proof (program_rows_code
                    (erase_calls (erase_block_size cfg) (base_addr cfg + offset)
                       (Z.to_nat (len / erase_block_size cfg))) hw) as Hcode.
      destruct (program_rows hw _) as [[r hw'] made]. cbn [fst] in Hcode.
      exists r, hw', made. split; [reflexivity|].
      split; [intros ->; destruct Hcode; discriminate|contradiction].
    + rewrite erase_rejects by (assumption || apply Hcfg).
      exists (- EINVAL), hw, []. split; [reflexivity|]. tauto.
  - intros dst Hdst.
    destruct (Z_le_dec 0 offset) as [Ho|Ho];
      [destruct (Z_le_dec (offset + len) (max_addr cfg - base_addr cfg))
         as [Hin|Hin]|].
    + rewrite read_accepts by (assumption || lia || apply Hcfg).
      eexists _, _. split; [reflexivity|].
      split; [discriminate|]. intros Hbad. exfalso. apply Hbad. tauto.
    + rewrite read_rejects by (assumption || lia || apply Hcfg).
      eexists _, _. split; [reflexivity|]. split; [lia|reflexivity].
    + rewrite read_rejects by (assumption || lia || apply Hcfg).
      eexists _, _. split; [reflexivity|]. split; [lia|reflexivity].
Qed.

(** X5: a rejected request leaves no trace.  When write or erase returns
    [-EINVAL] no call of the primitive was made, and whenever no call was
    made the hardware state is the one before the call; when read returns
    [-EINVAL] the destination buffer is unchanged. *)
Theorem rejection_leaves_no_trace (cfg : ifx_flash_config) (hw : HW)
    (offset len : Z) :
  cfg_ok cfg -> off_range ot offset -> u32 len ->
  (forall (fuel : nat) (data_ptr : Z) (data : list byte),
     len <= Z.of_nat (length data) ->
     len / write_block_size cfg <= Z.of_nat fuel ->
     exists r hw' calls,
       flash_ifx_write ot fuel cfg hw offset data_ptr data len =
       Done (r, hw', calls) /\
       (r = - EINVAL -> calls = []) /\ (calls = [] -> hw' = hw)) /\
  (forall fuel : nat,
     len / erase_block_size cfg <= Z.of_nat fuel ->
     exists r hw' calls,
       flash_ifx_erase ot fuel cfg hw offset len = Done (r, hw', calls) /\
       (r = - EINVAL -> calls = []) /\ (calls = [] -> hw' = hw)) /\
  (forall dst : list byte,
     len <= Z.of_nat (length dst) ->
     exists r out,
       flash_ifx_read ot cfg hw offset dst len = Done (r, out) /\
       (r = - EINVAL -> out = dst)).
Proof.
  intros Hcfg Hoff Hlen.
  split; [|split].
  - intros fuel data_ptr data Hdata Hfuel.
    destruct (Z.eq_dec len 0) as [->|Hnz].
    { exists 0, hw, []. split; [reflexivity|]. tauto. }
    assert (Hpos : 0 < len) by (unfold u32 in Hlen; lia).
    destruct (request_ok_dec cfg (write_block_size cfg) offset len) as [Hok|Hbad].
    + rewrite write_accepts by assumption.
      destruct (rows_at_least_one len (write_block_size cfg)) as [n Hn];
        try (apply Hcfg || apply Hok || assumption).
      rewrite Hn, row_calls_S.
      match goal with |- context [program_rows hw (?c :: ?cs)] =>
        destruct (program_rows hw (c :: cs)) as [[r hw'] made] eqn:Hrun
      end.
      destruct (program_rows_made_nonempty _ _ _ _ _ _ Hrun) as [Hne Hcode].
      exists r, hw', made. split; [reflexivity|].
      split; [intros ->; destruct Hcode; discriminate|].
      intros Hm. exfalso. exact (Hne Hm).
    + rewrite write_rejects by (assumption || apply Hcfg).
      exists (- EINVAL), hw, []. split; [reflexivity|]. tauto.
  - intros fuel Hfuel.
    destruct (Z.eq_dec len 0) as [->|Hnz].
    { exists 0, hw, []. split; [reflexivity|]. tauto. }
    assert (Hpos : 0 < len) by (unfold u32 in Hlen; lia).
    destruct (request_ok_dec cfg (erase_block_size cfg) offset len) as [Hok|Hbad].
    + rewrite erase_accepts by assumption.
      destruct (rows_at_least_one len (erase_block_size cfg)) as [n Hn];
        try (apply Hcfg || apply Hok || assumption).
      rewrite Hn, erase_calls_S.
      match goal with |- context [program_rows hw (?c :: ?cs)] =>
        destruct (program_rows hw (c :: cs)) as [[r hw'] made] eqn:Hrun
      end.
      destruct (program_rows_made_nonempty _ _ _ _ _ _ Hrun) as [Hne Hcode].
      exists r, hw', made. split; [reflexivity|].
      split; [intros ->; destruct Hcode; discriminate|].
      intros Hm. exfalso. exact (Hne Hm).
    + rewrite erase_rejects by (assumption || apply Hcfg).
      exists (- EINVAL), hw, []. split; [reflexivity|]. tauto.
  - intros dst Hdst.
    destruct (Z.eq_dec len 0) as [->|Hnz].
    { exists 0, dst. split; [reflexivity|]. discriminate. }
    destruct (Z_le_dec 0 offset) as [Ho|Ho];
      [destruct (Z_le_dec (offset + len) (max_addr cfg - base_addr cfg))
         as [Hin|Hin]|].
    + rewrite read_accepts
        by (assumption || (unfold u32 in Hlen; lia) || apply Hcfg).
      eexists _, _. split; [reflexivity|]. discriminate.
    + rewrite read_rejects by (assumption || lia || apply Hcfg).
      eexists _, _. split; reflexivity.
    + rewrite read_rejects by (assumption || lia || apply Hcfg).
      eexists _, _. split; reflexivity.
Qed.

(** X6: the return value of a validated write tells what was programmed.
    It is 0 exactly when every row of the buffer was handed to the
    primitive, once and in ascending order, and each call succeeded; it is
    [-EIO] exactly when some call failed, and that call is the last one
    made. *)
Theorem write_result_tells_rows (fuel : nat) (cfg : ifx_flash_config) (hw : HW)
    (offset data_ptr : Z) (data : list byte) (len : Z) :
  cfg_ok cfg -> off_range ot offset -> 0 < len ->
  request_ok cfg (write_block_size cfg) offset len ->
  len <= Z.of_nat (length data) ->
  len / write_block_size cfg <= Z.of_nat fuel ->
  exists r hw' calls,
    flash_ifx_write ot fuel cfg hw offset data_ptr data len =
    Done (r, hw', calls) /\
    ((r = 0 /\
      calls = row_calls (write_block_size cfg) (base_addr cfg + offset) data
                (Z.to_nat (len / write_block_size cfg)) /\
      programmed hw calls hw') \/
     (r = - EIO /\
      exists (k : nat) (hw1 : HW),
        Z.of_nat k < len / write_block_size cfg /\
        calls = row_calls (write_block_size cfg) (base_addr cfg + offset) data
                  (S k) /\
        programmed hw
          (row_calls (write_block_size cfg) (base_addr cfg + offset) data k)
          hw1 /\
        Cy_Flash_WriteRow hw1
          (base_addr cfg + offset + Z.of_nat k * write_block_size cfg)
          (row_at (write_block_size cfg) data k) = (false, hw'))).
Proof.
  intros Hcfg Hoff Hpos Hok Hdata Hfuel.
  rewrite write_accepts by assumption.
  set (n := Z.to_nat (len / write_block_size cfg)).
  destruct (program_rows hw
              (row_calls (write_block_size cfg) (base_addr cfg + offset) data n))
    as [[r hw'] made] eqn:Hrun.
  exists r, hw', made. split; [reflexivity|].
  destruct (program_rows_inv _ _ _ _ _ Hrun)
    as [(Hr & Hm & Hp)|(Hr & k & hw1 & Hk & Hm & Hp & Hfail)].
  - left. subst made. tauto.
  - right. split; [assumption|]. exists k, hw1.
    unfold row_calls in *. rewrite length_map, length_seq in Hk.
    rewrite firstn_map_seq in Hm, Hp by lia.
    rewrite (nth_map_seq _ k n) in Hfail by lia. cbn [fst snd] in Hfail.
    repeat split; try assumption. subst n. lia.
Qed.
End ReturnValue.

(** ** Erase as a write, and the width of [off_t] *)

Lemma firstn_repeat_add {A : Type} (x : A) (n m : nat) :
  firstn n (repeat x (n + m)) = repeat x n.
Proof.
  rewrite repeat_app, firstn_app, repeat_length, Nat.sub_diag.
  cbn [firstn]. rewrite app_nil_r. apply firstn_all2.
  rewrite repeat_length. lia.
Qed.

Lemma skipn_repeat_add {A : Type} (x : A) (n m : nat) :
  skipn n (repeat x (n + m)) = repeat x m.
Proof.
  rewrite repeat_app, skipn_app, repeat_length, Nat.sub_diag.
  cbn [skipn]. rewrite skipn_all2 by (rewrite repeat_length; lia).
  reflexivity.
Qed.

Lemma row_calls_repeat (row_len : Z) (n : nat) :
  forall addr : Z,
    row_calls row_len addr (repeat xff (n * Z.to_nat row_len)) n =
    erase_calls row_len addr n.
Proof.
  induction n as [|n IH]; intros addr; [reflexivity|].
  rewrite row_calls_S, erase_calls_S. cbn [Nat.mul].
  rewrite firstn_repeat_add, skipn_repeat_add, IH. reflexivity.
Qed.

Section EraseAsWrite.
Context {HW : Type} {prog : RowProgrammer HW}.

(** X7: on a device whose erase block is its write block, an erase is
    the write of a buffer of 0xFF bytes of the same size: same return
    value, same calls of the primitive, same hardware state, whatever the
    request and the alignment of the buffer. *)
Theorem erase_is_write_of_ff (ot : off_kind) (fuel : nat)
    (cfg : ifx_flash_config) (hw : HW) (offset size data_ptr : Z) :
  cfg_ok cfg -> erase_block_size cfg = write_block_size cfg ->
  off_range ot offset -> u32 size ->
  size / write_block_size cfg <= Z.of_nat fuel ->
  flash_ifx_erase ot fuel cfg hw offset size =
  flash_ifx_write ot fuel cfg hw offset data_ptr
    (repeat xff (Z.to_nat size)) size.
Proof.
  intros Hcfg Hsame Hoff Hsize Hfuel.
  destruct (Z.eq_dec size 0) as [->|Hnz]; [reflexivity|].
  assert (Hpos : 0 < size) by (unfold u32 in Hsize; lia).
  destruct (request_ok_dec cfg (write_block_size cfg) offset size) as [Hok|Hbad].
  - rewrite write_accepts by (assumption || (rewrite repeat_length; lia)).
    rewrite erase_accepts by (rewrite ?Hsame; assumption).
    rewrite Hsame. do 2 f_equal.
    destruct Hok as (_ & _ & Hlm & _).
    assert (Hb : 0 < write_block_size cfg) by apply Hcfg.
    pose proof (rows_of_len size (write_block_size cfg) Hb ltac:(lia) Hlm)
      as Hrows.
    set (n := Z.to_nat (size / write_block_size cfg)) in *.
    replace (Z.to_nat size) with (n * Z.to_nat (write_block_size cfg))%nat
      by nia.
    symmetry. apply row_calls_repeat.
  - rewrite write_rejects by (assumption || apply Hcfg).
    rewrite erase_rejects by (rewrite ?Hsame; assumption || apply Hcfg).
    reflexivity.
Qed.

Lemma wrap32_nonneg (z : Z) : 0 <= wrap32 z.
Proof. unfold wrap32. apply Z.mod_pos_bound. lia. Qed.

Lemma off_ops_agree (offset row_len u : Z) :
  off_range Off32 offset -> 0 <= offset -> 0 < row_len ->
  off_rem Off32 offset row_len = off_rem Off64 offset row_len /\
  u32_lt_off Off32 u offset = u32_lt_off Off64 u offset.
Proof.
  intros Hr Ho Hrow.
  assert (Hr64 : off_range Off64 offset)
    by (unfold off_range in *; cbn in *; lia).
  rewrite !off_rem_nonneg, !u32_lt_off_nonneg by assumption. tauto.
Qed.

(** X8: the width of [off_t] does not matter.  For every offset that a
    32-bit [off_t] can hold, the three operations behave the same with a
    32-bit and with a 64-bit [off_t], although [offset % row_len] and the
    comparison with the span convert differently: write and read test the
    sign first, and erase, which divides first, rejects a negative offset
    whatever the remainder was. *)
Theorem off_t_width_irrelevant (cfg : ifx_flash_config) (hw : HW)
    (offset len : Z) :
  off_range Off32 offset ->
  (forall (fuel : nat) (data_ptr : Z) (data : list byte),
     flash_ifx_write Off32 fuel cfg hw offset data_ptr data len =
     flash_ifx_write Off64 fuel cfg hw offset data_ptr data len) /\
  (forall dst : list byte,
     flash_ifx_read Off32 cfg hw offset dst len =
     flash_ifx_read Off64 cfg hw offset dst len) /\
  (forall fuel : nat,
     flash_ifx_erase Off32 fuel cfg hw offset len =
     flash_ifx_erase Off64 fuel cfg hw offset len).
Proof.
  intros Hr. split; [|split].
  - intros fuel data_ptr data. unfold flash_ifx_write.
    destruct (len =? 0); [reflexivity|].
    destruct (Z.ltb_spec offset 0) as [|Ho]; [reflexivity|].
    destruct (Z.eqb_spec (wrap32 (write_block_size cfg)) 0) as [|Hrow];
      [reflexivity|].
    pose proof (wrap32_nonneg (write_block_size cfg)).
    destruct (off_ops_agree offset (wrap32 (write_block_size cfg))
                (wrap32 (max_addr cfg - base_addr cfg)) Hr Ho ltac:(lia))
      as [-> ->].
    reflexivity.
  - intros dst. unfold flash_ifx_read.
    destruct (len =? 0); [reflexivity|].
    destruct (Z.ltb_spec offset 0) as [|Ho]; [reflexivity|].
    destruct (off_ops_agree offset 1
                (wrap32 (max_addr cfg - base_addr cfg)) Hr Ho ltac:(lia))
      as [_ ->].
    reflexivity.
  - intros fuel. unfold flash_ifx_erase.
    destruct (len =? 0); [reflexivity|].
    destruct (Z.eqb_spec (wrap32 (erase_block_size cfg)) 0) as [|Hrow];
      [reflexivity|].
    pose proof (wrap32_nonneg (erase_block_size cfg)).
    destruct (Z.ltb_spec offset 0) as [Hneg|Ho].
    + destruct (off_rem Off32 offset (wrap32 (erase_block_size cfg)) =? 0);
        destruct (off_rem Off64 offset (wrap32 (erase_block_size cfg)) =? 0);
        cbn [negb];
        destruct (len mod wrap32 (erase_block_size cfg) =? 0);
        reflexivity.
    + destruct (off_ops_agree offset (wrap32 (erase_block_size cfg))
                  (wrap32 (max_addr cfg - base_addr cfg)) Hr Ho ltac:(lia))
        as [-> ->].
      reflexivity.
Qed.
End EraseAsWrite.

(** ** Flash contents under a faithful primitive *)

Lemma map_seq_from {A : Type} (f : nat -> A) (s n : nat) :
  map f (seq s n) = map (fun i => f (s + i)%nat) (seq 0 n).
Proof.
  induction s as [|s IH] in f |- *; [reflexivity|].
  rewrite <- seq_shift, map_map, IH. reflexivity.
Qed.

Section Contents.
Context {HW : Type} {prog : RowProgrammer HW}.
Variable ot : off_kind.

Lemma flash_bytes_ext (hw1 hw2 : HW) (a n : Z) :
  (forall x, a <= x < a + n -> flash_byte hw1 x = flash_byte hw2 x) ->
  flash_bytes hw1 a n = flash_bytes hw2 a n.
Proof.
  intros H. unfold flash_bytes. apply map_ext_in. intros i Hi.
  apply in_seq in Hi. apply H. lia.
Qed.

Lemma flash_bytes_app (hw : HW) (a n m : Z) :
  0 <= n -> 0 <= m ->
  flash_bytes hw a (n + m) = flash_bytes hw a n ++ flash_bytes hw (a + n) m.
Proof.
  intros Hn Hm. unfold flash_bytes.
  rewrite Z2Nat.inj_add, seq_app, map_app by lia. f_equal.
  cbn [Nat.add]. rewrite map_seq_from. apply map_ext. intros i.
  f_equal. lia.
Qed.

Lemma flash_bytes_length (hw : HW) (a n : Z) :
  length (flash_bytes hw a n) = Z.to_nat n.
Proof. unfold flash_bytes. now rewrite length_map, length_seq. Qed.

(** The memory after a validated write through a faithful primitive. *)
Lemma faithful_write_memory (fuel : nat) (cfg : ifx_flash_config) (hw : HW)
    (offset data_ptr : Z) (data : list byte) (len : Z) :
  cfg_ok cfg -> faithful -> off_range ot offset -> 0 < len ->
  request_ok cfg (write_block_size cfg) offset len ->
  len <= Z.of_nat (length data) ->
  len / write_block_size cfg <= Z.of_nat fuel ->
  exists hw',
    flash_ifx_write ot fuel cfg hw offset data_ptr data len =
    Done (0, hw',
          row_calls (write_block_size cfg) (base_addr cfg + offset) data
            (Z.to_nat (len / write_block_size cfg))) /\
    forall x,
      flash_byte hw' x =
      if (base_addr cfg + offset <=? x) && (x <? base_addr cfg + offset + len)
      then nth (Z.to_nat (x - (base_addr cfg + offset))) data x00
      else flash_byte hw x.
Proof.
  intros Hcfg Hf Hoff Hpos Hok Hdata Hfuel.
  rewrite write_accepts by assumption.
  set (cs := row_calls _ _ _ _).
  destruct (faithful_programmed Hf cs hw) as [hw' [Hp Hmem]].
  rewrite (program_rows_programmed hw cs hw' Hp).
  exists hw'. split; [reflexivity|].
  intros x. rewrite Hmem. subst cs.
  destruct Hok as (_ & _ & Hlm & _).
  assert (Hb : 0 < write_block_size cfg) by apply Hcfg.
  pose proof (rows_of_len len (write_block_size cfg) Hb ltac:(lia) Hlm)
    as Hrows.
  rewrite store_rows_row_calls by lia.
  rewrite <- Hrows. reflexivity.
Qed.

(** The memory after a validated erase through a faithful primitive. *)
Lemma faithful_erase_memory (fuel : nat) (cfg : ifx_flash_config) (hw : HW)
    (offset size : Z) :
  cfg_ok cfg -> faithful -> off_range ot offset -> 0 < size ->
  request_ok cfg (erase_block_size cfg) offset size ->
  size / erase_block_size cfg <= Z.of_nat fuel ->
  exists hw',
    flash_ifx_erase ot fuel cfg hw offset size =
    Done (0, hw',
          erase_calls (erase_block_size cfg) (base_addr cfg + offset)
            (Z.to_nat (size / erase_block_size cfg))) /\
    forall x,
      flash_byte hw' x =
      if (base_addr cfg + offset <=? x) && (x <? base_addr cfg + offset + size)
      then xff
      else flash_byte hw x.
Proof.
  intros Hcfg Hf Hoff Hpos Hok Hfuel.
  rewrite erase_accepts by assumption.
  set (cs := erase_calls _ _ _).
  destruct (faithful_programmed Hf cs hw) as [hw' [Hp Hmem]].
  rewrite (program_rows_programmed hw cs hw' Hp).
  exists hw'. split; [reflexivity|].
  intros x. rewrite Hmem. subst cs.
  destruct Hok as (_ & _ & Hlm & _).
  assert (Hb : 0 < erase_block_size cfg) by apply Hcfg.
  pose proof (rows_of_len size (erase_block_size cfg) Hb ltac:(lia) Hlm)
    as Hrows.
  rewrite store_rows_erase_calls by lia.
  rewrite <- Hrows. reflexivity.
Qed.

(** X9: a write and an erase touch their range only.  With a faithful
    primitive, a validated write (erase) succeeds and leaves every byte
    outside [[base_addr + offset, base_addr + offset + len)] as it was, so
    an in-bounds read of a range that does not meet the written (erased)
    one returns what it returned before. *)
Theorem write_and_erase_frame (cfg : ifx_flash_config) (hw : HW)
    (offset len offset2 len2 : Z) (dst : list byte) :
  cfg_ok cfg -> faithful -> off_range ot offset -> 0 < len ->
  off_range ot offset2 -> 0 <= offset2 -> 0 <= len2 ->
  offset2 + len2 <= max_addr cfg - base_addr cfg ->
  len2 <= Z.of_nat (length dst) ->
  offset2 + len2 <= offset \/ offset + len <= offset2 ->
  (forall (fuel : nat) (data_ptr : Z) (data : list byte),
     request_ok cfg (write_block_size cfg) offset len ->
     len <= Z.of_nat (length data) ->
     len / write_block_size cfg <= Z.of_nat fuel ->
     exists hw' calls,
       flash_ifx_write ot fuel cfg hw offset data_ptr data len =
       Done (0, hw', calls) /\
       (forall x,
          x < base_addr cfg + offset \/ base_addr cfg + offset + len <= x ->
          flash_byte hw' x = flash_byte hw x) /\
       flash_ifx_read ot cfg hw' offset2 dst len2 =
       flash_ifx_read ot cfg hw offset2 dst len2) /\
  (forall fuel : nat,
     request_ok cfg (erase_block_size cfg) offset len ->
     len / erase_block_size cfg <= Z.of_nat fuel ->
     exists hw' calls,
       flash_ifx_erase ot fuel cfg hw offset len = Done (0, hw', calls) /\
       (forall x,
          x < base_addr cfg + offset \/ base_addr cfg + offset + len <= x ->
          flash_byte hw' x = flash_byte hw x) /\
       flash_ifx_read ot cfg hw' offset2 dst len2 =
       flash_ifx_read ot cfg hw offset2 dst len2).
Proof.
  intros Hcfg Hf Hoff Hpos Hoff2 Ho2 Hl2 Hin2 Hdst Hdisj.
  assert (Hframe : forall hw' : HW,
            (forall x,
               x < base_addr cfg + offset \/ base_addr cfg + offset + len <= x ->
               flash_byte hw' x = flash_byte hw x) ->
            flash_ifx_read ot cfg hw' offset2 dst len2 =
            flash_ifx_read ot cfg hw offset2 dst len2).
  { intros hw' Hout.
    rewrite !read_accepts by (assumption || apply Hcfg).
    do 3 f_equal. apply flash_bytes_ext. intros x Hx. apply Hout. lia. }
  split.
  - intros fuel data_ptr data Hok Hdata Hfuel.
    destruct (faithful_write_memory fuel cfg hw offset data_ptr data len)
      as [hw' [Hrun Hmem]]; try assumption.
    assert (Hout : forall x,
              x < base_addr cfg + offset \/ base_addr cfg + offset + len <= x ->
              flash_byte hw' x = flash_byte hw x).
    { intros x Hx. rewrite Hmem.
      destruct (Z.leb_spec (base_addr cfg + offset) x);
        destruct (Z.ltb_spec x (base_addr cfg + offset + len));
        cbn [andb]; try reflexivity; lia. }
    eexists hw', _. split; [exact Hrun|]. split; [exact Hout|].
    now apply Hframe.
  - intros fuel Hok Hfuel.
    destruct (faithful_erase_memory fuel cfg hw offset len)
      as [hw' [Hrun Hmem]]; try assumption.
    assert (Hout : forall x,
              x < base_addr cfg + offset \/ base_addr cfg + offset + len <= x ->
              flash_byte hw' x = flash_byte hw x).
    { intros x Hx. rewrite Hmem.
      destruct (Z.leb_spec (base_addr cfg + offset) x);
        destruct (Z.ltb_spec x (base_addr cfg + offset + len));
        cbn [andb]; try reflexivity; lia. }
    eexists hw', _. split; [exact Hrun|]. split; [exact Hout|].
    now apply Hframe.
Qed.

(** X10: reads compose.  An in-bounds read of [n + m] bytes returns the
    bytes of the read of [n] bytes at the same offset followed by the
    bytes of the read of [m] bytes at [offset + n]. *)
Theorem read_concat (cfg : ifx_flash_config) (hw : HW) (offset n m : Z)
    (dst1 dst2 dst : list byte) :
  region_ok cfg -> off_range ot offset -> off_range ot (offset + n) ->
  0 <= offset -> 0 <= n -> 0 <= m ->
  offset + n + m <= max_addr cfg - base_addr cfg ->
  Z.of_nat (length dst1) = n -> Z.of_nat (length dst2) = m ->
  Z.of_nat (length dst) = n + m ->
  exists b1 b2,
    flash_ifx_read ot cfg hw offset dst1 n = Done (0, b1) /\
    flash_ifx_read ot cfg hw (offset + n) dst2 m = Done (0, b2) /\
    flash_ifx_read ot cfg hw offset dst (n + m) = Done (0, b1 ++ b2).
Proof.
  intros Hcfg Hoff Hoff2 Ho Hn Hm Hin H1 H2 H3.
  rewrite !read_accepts by (assumption || lia).
  unfold memcpy.
  rewrite !skipn_all2 by (rewrite flash_bytes_length; lia).
  rewrite !app_nil_r. eexists _, _.
  split; [reflexivity|]. split; [reflexivity|].
  rewrite flash_bytes_app by assumption.
  now rewrite Z.add_assoc.
Qed.
End Contents.

(** ** Writes compose *)

Lemma row_calls_app (row_len : Z) (n1 : nat) :
  forall (addr : Z) (d1 d2 : list byte) (n2 : nat),
    length d1 = (n1 * Z.to_nat row_len)%nat ->
    row_calls row_len addr (d1 ++ d2) (n1 + n2) =
    row_calls row_len addr d1 n1
      ++ row_calls row_len (addr + Z.of_nat n1 * row_len) d2 n2.
Proof.
  induction n1 as [|n1 IH]; intros addr d1 d2 n2 Hlen.
  - destruct d1; [|discriminate]. cbn [app Nat.add Z.of_nat row_calls seq map].
    now rewrite Z.mul_0_l, Z.add_0_r.
  - cbn [Nat.add]. rewrite !row_calls_S. cbn [app].
    cbn [Nat.mul] in Hlen.
    rewrite firstn_app, skipn_app.
    replace (Z.to_nat row_len - length d1)%nat with 0%nat by lia.
    cbn [firstn skipn]. rewrite app_nil_r.
    rewrite IH by (rewrite length_skipn; lia).
    replace (addr + Z.of_nat (S n1) * row_len)
      with (addr + row_len + Z.of_nat n1 * row_len) by lia.
    reflexivity.
Qed.

Section Composition.
Context {HW : Type} {prog : RowProgrammer HW}.
Variable ot : off_kind.

Lemma program_rows_app (hw : HW) (cs1 : list row_call) (hw1 : HW)
    (cs2 : list row_call) :
  programmed hw cs1 hw1 ->
  program_rows hw (cs1 ++ cs2) =
  (fst (fst (program_rows hw1 cs2)), snd (fst (program_rows hw1 cs2)),
   cs1 ++ snd (program_rows hw1 cs2)).
Proof.
  induction 1 as [hw|hw c hwa cs hwb Hc _ IH]; cbn [app].
  - now destruct (program_rows hw cs2) as [[r hw2] made].
  - cbn [program_rows]. rewrite Hc. cbn [negb]. rewrite IH. reflexivity.
Qed.

(** X11: a write can be made in two parts.  When the write of the first
    rows of a buffer returns 0, writing the remaining rows right behind
    them gives the return value, the hardware state and, together with the
    calls of the first part, the calls of the write of the whole buffer
    in one request. *)
Theorem write_in_two_parts (fuel : nat) (cfg : ifx_flash_config) (hw : HW)
    (offset p1 p2 p : Z) (d1 d2 : list byte) (hw1 : HW)
    (c1 : list row_call) :
  cfg_ok cfg -> off_range ot offset ->
  off_range ot (offset + Z.of_nat (length d1)) ->
  0 < Z.of_nat (length d1) -> 0 < Z.of_nat (length d2) ->
  Z.of_nat (length d1) mod write_block_size cfg = 0 ->
  request_ok cfg (write_block_size cfg) offset
    (Z.of_nat (length d1) + Z.of_nat (length d2)) ->
  (Z.of_nat (length d1) + Z.of_nat (length d2)) / write_block_size cfg
  <= Z.of_nat fuel ->
  flash_ifx_write ot fuel cfg hw offset p1 d1 (Z.of_nat (length d1)) =
  Done (0, hw1, c1) ->
  exists r hw2 c2,
    flash_ifx_write ot fuel cfg hw1 (offset + Z.of_nat (length d1)) p2 d2
      (Z.of_nat (length d2)) = Done (r, hw2, c2) /\
    flash_ifx_write ot fuel cfg hw offset p (d1 ++ d2)
      (Z.of_nat (length d1) + Z.of_nat (length d2)) =
    Done (r, hw2, c1 ++ c2).
Proof.
  intros Hcfg Hoff Hoff2 Hpos1 Hpos2 Hm1 (Ho & Hom & Hlm & Hin) Hfuel Hfirst.
  assert (Hb : 0 < write_block_size cfg) by apply Hcfg.
  set (b := write_block_size cfg) in *.
  set (l1 := Z.of_nat (length d1)) in *.
  set (l2 := Z.of_nat (length d2)) in *.
  assert (Hm2 : l2 mod b = 0).
  { rewrite <- (Z.add_simpl_l l1 l2), Zminus_mod, Hlm, Hm1. reflexivity. }
  pose proof (rows_of_len l1 b Hb ltac:(lia) Hm1) as Hr1.
  pose proof (rows_of_len l2 b Hb ltac:(lia) Hm2) as Hr2.
  set (n1 := Z.to_nat (l1 / b)) in *. set (n2 := Z.to_nat (l2 / b)) in *.
  assert (Hn : Z.to_nat ((l1 + l2) / b) = (n1 + n2)%nat).
  { rewrite Hr1, Hr2, <- Z.mul_add_distr_r, Z.div_mul by lia.
    now rewrite <- Nat2Z.inj_add, Nat2Z.id. }
  pose proof Hn as Hn'. apply (f_equal Z.of_nat) in Hn'.
  rewrite Z2Nat.id in Hn' by (apply Z.div_pos; lia).
  assert (Hok1 : request_ok cfg b offset l1)
    by (unfold request_ok; repeat split; try assumption; lia).
  assert (Hok2 : request_ok cfg b (offset + l1) l2).
  { unfold request_ok. repeat split; try assumption; try lia.
    rewrite Z.add_mod, Hom, Hm1 by lia. reflexivity. }
  assert (Hd1 : l1 / b = Z.of_nat n1)
    by (subst n1; rewrite Z2Nat.id; [reflexivity|apply Z.div_pos; lia]).
  assert (Hd2 : l2 / b = Z.of_nat n2)
    by (subst n2; rewrite Z2Nat.id; [reflexivity|apply Z.div_pos; lia]).
  assert (Hf1 : l1 / b <= Z.of_nat fuel) by (rewrite Hd1; lia).
  assert (Hf2 : l2 / b <= Z.of_nat fuel) by (rewrite Hd2; lia).
  assert (Hlen12 : l1 + l2 <= Z.of_nat (length (d1 ++ d2)))
    by (rewrite length_app; subst l1 l2; lia).
  rewrite (write_accepts ot fuel cfg hw offset p1 d1 l1 Hcfg Hoff Hpos1 Hok1
             (Z.le_refl _) Hf1) in Hfirst.
  fold n1 in Hfirst. injection Hfirst as Hfirst.
  destruct (program_rows_inv _ _ _ _ _ Hfirst)
    as [(_ & Hc1 & Hp1)|(Hr & _)]; [|discriminate].
  rewrite (write_accepts ot fuel cfg hw1 (offset + l1) p2 d2 l2 Hcfg Hoff2
             Hpos2 Hok2 (Z.le_refl _) Hf2).
  rewrite (write_accepts ot fuel cfg hw offset p (d1 ++ d2) (l1 + l2) Hcfg
             Hoff ltac:(lia) (conj Ho (conj Hom (conj Hlm Hin))) Hlen12 Hfuel).
  fold b n2. rewrite Hn.
  rewrite row_calls_app by (subst n1; lia).
  rewrite (program_rows_app hw _ hw1 _ Hp1).
  rewrite <- Hr1, <- Z.add_assoc, Hc1.
  destruct (program_rows hw1 _) as [[r hw2] c2]. cbn [fst snd].
  exists r, hw2, c2. split; reflexivity.
Qed.

(** X12: an erase before a write is redundant, as [no_explicit_erase]
    declares.  With a faithful primitive, on a range that write and erase
    both accept, erasing the range and then writing it leaves the flash
    with the same contents as writing it at once, and the write makes the
    same calls in both cases. *)
Theorem erase_before_write_redundant (fuel : nat) (cfg : ifx_flash_config)
    (hw : HW) (offset data_ptr : Z) (data : list byte) (len : Z) :
  cfg_ok cfg -> faithful -> off_range ot offset -> 0 < len ->
  request_ok cfg (write_block_size cfg) offset len ->
  request_ok cfg (erase_block_size cfg) offset len ->
  len <= Z.of_nat (length data) ->
  len / write_block_size cfg <= Z.of_nat fuel ->
  len / erase_block_size cfg <= Z.of_nat fuel ->
  fp_no_explicit_erase (flash_ifx_get_parameters cfg) = true /\
  exists hw_e calls_e hw_ew hw_w calls_w,
    flash_ifx_erase ot fuel cfg hw offset len = Done (0, hw_e, calls_e) /\
    flash_ifx_write ot fuel cfg hw_e offset data_ptr data len =
    Done (0, hw_ew, calls_w) /\
    flash_ifx_write ot fuel cfg hw offset data_ptr data len =
    Done (0, hw_w, calls_w) /\
    forall x, flash_byte hw_ew x = flash_byte hw_w x.
Proof.
  intros Hcfg Hf Hoff Hpos Hokw Hoke Hdata Hfw Hfe.
  split; [reflexivity|].
  destruct (faithful_erase_memory ot fuel cfg hw offset len)
    as [hw_e [Hrun_e Hmem_e]]; try assumption.
  destruct (faithful_write_memory ot fuel cfg hw_e offset data_ptr data len)
    as [hw_ew [Hrun_ew Hmem_ew]]; try assumption.
  destruct (faithful_write_memory ot fuel cfg hw offset data_ptr data len)
    as [hw_w [Hrun_w Hmem_w]]; try assumption.
  eexists hw_e, _, hw_ew, hw_w, _.
  split; [exact Hrun_e|]. split; [exact Hrun_ew|]. split; [exact Hrun_w|].
  intros x. rewrite Hmem_ew, Hmem_w, Hmem_e.
  destruct ((base_addr cfg + offset <=? x)
            && (x <? base_addr cfg + offset + len)); reflexivity.
Qed.
End Composition.

Section ReadBack.
Context {HW : Type} {prog : RowProgrammer HW}.
Variable ot : off_kind.

(** X13: any part of what was written reads back.  With a faithful
    primitive, after a validated write a read of [m] bytes at byte [i] of
    the written range, of any alignment, returns bytes [i] to [i + m] of
    the buffer. *)
Theorem write_then_read_part (fuel : nat) (cfg : ifx_flash_config) (hw : HW)
    (offset data_ptr : Z) (data : list byte) (len i m : Z)
    (dst : list byte) :
  cfg_ok cfg -> faithful -> off_range ot offset -> 0 < len ->
  request_ok cfg (write_block_size cfg) offset len ->
  len <= Z.of_nat (length data) ->
  len / write_block_size cfg <= Z.of_nat fuel ->
  0 <= i -> 0 <= m -> i + m <= len -> off_range ot (offset + i) ->
  Z.of_nat (length dst) = m ->
  exists hw' calls,
    flash_ifx_write ot fuel cfg hw offset data_ptr data len =
    Done (0, hw', calls) /\
    flash_ifx_read ot cfg hw' (offset + i) dst m =
    Done (0, firstn (Z.to_nat m) (skipn (Z.to_nat i) data)).
Proof.
  intros Hcfg Hf Hoff Hpos Hok Hdata Hfuel Hi Hm Him Hoff2 Hdst.
  destruct (faithful_write_memory ot fuel cfg hw offset data_ptr data len)
    as [hw' [Hrun Hmem]]; try assumption.
  eexists hw', _. split; [exact Hrun|].
  destruct Hok as (Ho & _ & _ & Hin).
  rewrite read_accepts by (assumption || lia || apply Hcfg).
  unfold memcpy. rewrite skipn_all2 by (rewrite flash_bytes_length; lia).
  rewrite app_nil_r. do 2 f_equal.
  set (part := firstn (Z.to_nat m) (skipn (Z.to_nat i) data)).
  assert (Hpart : length part = Z.to_nat m).
  { subst part. rewrite length_firstn, length_skipn. lia. }
  replace m with (Z.of_nat (length part)) by lia.
  apply flash_bytes_eq. intros j Hj. rewrite Hmem.
  destruct (Z.leb_spec (base_addr cfg + offset)
              (base_addr cfg + (offset + i) + Z.of_nat j)); [|lia].
  destruct (Z.ltb_spec (base_addr cfg + (offset + i) + Z.of_nat j)
              (base_addr cfg + offset + len)); [|lia].
  cbn [andb]. subst part. rewrite nth_firstn, nth_skipn.
  destruct (Nat.ltb_spec j (Z.to_nat m)); [|lia].
  f_equal. lia.
Qed.
End ReadBack.

(** ** The further properties on concrete devices *)

Lemma dt_demo_ok : dt_ok dt_demo.
Proof.
  unfold dt_ok, block_ok, block_nonzero. cbn. repeat split; try lia; reflexivity.
Qed.

(** X1, at the node of the examples. *)
Lemma devicetree_config_size_witness :
  cfg_ok (ifx_flash_config_parameters dt_demo) /\
  flash_ifx_get_size (ifx_flash_config_parameters dt_demo) = (0, 0x1000).
Proof. exact (devicetree_config_size dt_demo dt_demo_ok). Defined.

(** X2, at the node of the examples: 16 pages of 256 bytes. *)
Lemma page_layout_covers_region_witness :
  snd (flash_ifx_page_layout dt_demo) = 1 /\
  pages_size (fst (flash_ifx_page_layout dt_demo)) = 256 /\
  0 <= pages_count (fst (flash_ifx_page_layout dt_demo)) /\
  16 * 256 <= 0x1000 /\ 0x1000 < (16 + 1) * 256 /\
  (0x1000 mod 256 = 0 -> 16 * 256 = 0x1000).
Proof. exact (page_layout_covers_region dt_demo dt_demo_ok). Defined.

(** X3, at the last page of the layout. *)
Lemma layout_page_is_one_row_witness :
  exists r hw',
    flash_ifx_write Off32 1 (ifx_flash_config_parameters dt_demo) mem_demo
      (15 * 256) 0 (repeat xaa 256) 256 =
    Done (r, hw', [(0x1000 + 15 * 256, repeat xaa 256)]) /\
    Cy_Flash_WriteRow mem_demo (0x1000 + 15 * 256) (repeat xaa 256) =
    (r =? 0, hw') /\
    (r = 0 \/ r = - EIO).
Proof.
  apply (layout_page_is_one_row Off32 dt_demo 15 1 mem_demo 0
           (repeat xaa 256) dt_demo_ok).
  - cbn. lia.
  - apply off_range_small. cbn. lia.
  - reflexivity.
  - lia.
Defined.

(** X4, at a one-row request that is accepted. *)
Lemma validation_exact_witness :
  exists r hw' calls,
    flash_ifx_write Off32 1 cfg_demo mem_demo 256 0 (repeat xaa 256) 256 =
    Done (r, hw', calls) /\
    (r = - EINVAL <-> ~ request_ok cfg_demo (write_block_size cfg_demo) 256 256).
Proof.
  refine (proj1 (validation_exact Off32 cfg_demo mem_demo 256 256 cfg_demo_ok
                   (off_range_small Off32 256 _) _ _) 1%nat 0
            (repeat xaa 256) _ _).
  - lia.
  - unfold u32. lia.
  - lia.
  - rewrite repeat_length. lia.
  - cbn. lia.
Defined.

(** X5, at an unaligned request. *)
Lemma rejection_leaves_no_trace_witness :
  exists r hw' calls,
    flash_ifx_write Off32 1 cfg_demo mem_demo 100 0 (repeat xaa 256) 256 =
    Done (r, hw', calls) /\
    (r = - EINVAL -> calls = []) /\ (calls = [] -> hw' = mem_demo).
Proof.
  refine (proj1 (rejection_leaves_no_trace Off32 cfg_demo mem_demo 100 256
                   cfg_demo_ok (off_range_small Off32 100 _) _) 1%nat 0
            (repeat xaa 256) _ _).
  - lia.
  - unfold u32. lia.
  - rewrite repeat_length. lia.
  - cbn. lia.
Defined.

(** X6, at a three-row write on the simulator that fails on its second
    call. *)
Lemma write_result_tells_rows_witness :
  exists r hw' calls,
    flash_ifx_write (prog := FailingSimulator) Off32 3 cfg_demo
      (1%nat, mem_demo) 0 0
      (repeat xaa 256 ++ repeat xbb 256 ++ repeat xcc 256) 768 =
    Done (r, hw', calls) /\
    ((r = 0 /\
      calls = row_calls (write_block_size cfg_demo) (base_addr cfg_demo + 0)
                (repeat xaa 256 ++ repeat xbb 256 ++ repeat xcc 256)
                (Z.to_nat (768 / write_block_size cfg_demo)) /\
      programmed (prog := FailingSimulator) (1%nat, mem_demo) calls hw') \/
     (r = - EIO /\
      exists (k : nat) (hw1 : nat * (Z -> byte)),
        Z.of_nat k < 768 / write_block_size cfg_demo /\
        calls = row_calls (write_block_size cfg_demo) (base_addr cfg_demo + 0)
                  (repeat xaa 256 ++ repeat xbb 256 ++ repeat xcc 256) (S k) /\
        programmed (prog := FailingSimulator) (1%nat, mem_demo)
          (row_calls (write_block_size cfg_demo) (base_addr cfg_demo + 0)
             (repeat xaa 256 ++ repeat xbb 256 ++ repeat xcc 256) k) hw1 /\
        Cy_Flash_WriteRow (RowProgrammer := FailingSimulator) hw1
          (base_addr cfg_demo + 0 + Z.of_nat k * write_block_size cfg_demo)
          (row_at (write_block_size cfg_demo)
             (repeat xaa 256 ++ repeat xbb 256 ++ repeat xcc 256) k) =
        (false, hw'))).
Proof.
  apply (write_result_tells_rows (prog := FailingSimulator) Off32 3 cfg_demo
           (1%nat, mem_demo) 0 0
           (repeat xaa 256 ++ repeat xbb 256 ++ repeat xcc 256) 768
           cfg_demo_ok (off_range_small Off32 0 ltac:(lia))).
  - lia.
  - unfold request_ok. cbn. lia.
  - rewrite !length_app, !repeat_length. lia.
  - cbn. lia.
Defined.

(** X7, at a two-row request. *)
Lemma erase_is_write_of_ff_witness :
  flash_ifx_erase Off32 2 cfg_demo mem_demo 0 512 =
  flash_ifx_write Off32 2 cfg_demo mem_demo 0 1 (repeat xff (Z.to_nat 512)) 512.
Proof.
  apply (erase_is_write_of_ff Off32 2 cfg_demo mem_demo 0 512 1 cfg_demo_ok
           eq_refl (off_range_small Off32 0 ltac:(lia))).
  - unfold u32. lia.
  - cbn. lia.
Defined.

(** X8, at an erase with rows of 12 bytes and offset -4, where the
    32-bit remainder is 0 and the 64-bit remainder is -4. *)
Lemma off_t_width_irrelevant_witness :
  off_rem Off32 (-4) 12 = 0 /\ off_rem Off64 (-4) 12 = -4 /\
  flash_ifx_erase Off32 1
    {| base_addr := 0x1000; max_addr := 0x2000;
       write_block_size := 12; erase_block_size := 12 |} mem_demo (-4) 12 =
  flash_ifx_erase Off64 1
    {| base_addr := 0x1000; max_addr := 0x2000;
       write_block_size := 12; erase_block_size := 12 |} mem_demo (-4) 12.
Proof.
  split; [reflexivity|]. split; [reflexivity|].
  apply (off_t_width_irrelevant
           {| base_addr := 0x1000; max_addr := 0x2000;
              write_block_size := 12; erase_block_size := 12 |}
           mem_demo (-4) 12).
  unfold off_range. cbn. lia.
Defined.

(** X9, at a write of the first row and a read of the second. *)
Lemma write_and_erase_frame_witness :
  exists hw' calls,
    flash_ifx_write Off32 1 cfg_demo mem_demo 0 0 (repeat xaa 256) 256 =
    Done (0, hw', calls) /\
    (forall x,
       x < base_addr cfg_demo + 0 \/ base_addr cfg_demo + 0 + 256 <= x ->
       flash_byte hw' x = flash_byte mem_demo x) /\
    flash_ifx_read Off32 cfg_demo hw' 256 (repeat xbb 256) 256 =
    flash_ifx_read Off32 cfg_demo mem_demo 256 (repeat xbb 256) 256.
Proof.
  refine (proj1 (write_and_erase_frame Off32 cfg_demo mem_demo 0 256 256 256
                   (repeat xbb 256) cfg_demo_ok Simulator_faithful
                   (off_range_small Off32 0 _) _
                   (off_range_small Off32 256 _) _ _ _ _ _)
            1%nat 0 (repeat xaa 256) _ _ _);
    rewrite ?repeat_length; try (unfold request_ok); cbn; lia.
Defined.

(** X10, at a read of 3 + 5 bytes. *)
Lemma read_concat_witness :
  exists b1 b2,
    flash_ifx_read Off32 cfg_demo mem_demo 7 (repeat xaa 3) 3 = Done (0, b1) /\
    flash_ifx_read Off32 cfg_demo mem_demo (7 + 3) (repeat xaa 5) 5 =
    Done (0, b2) /\
    flash_ifx_read Off32 cfg_demo mem_demo 7 (repeat xaa 8) (3 + 5) =
    Done (0, b1 ++ b2).
Proof.
  apply (read_concat Off32 cfg_demo mem_demo 7 3 5 (repeat xaa 3)
           (repeat xaa 5) (repeat xaa 8) (proj1 cfg_demo_ok));
    try (apply off_range_small); cbn; lia.
Defined.

(** X11, at a buffer of two rows written row by row and at once. *)
Lemma write_in_two_parts_witness :
  exists r hw2 c2,
    flash_ifx_write Off32 2 cfg_demo
      (store_row mem_demo 0x1000 (repeat xaa 256))
      (0 + Z.of_nat (length (repeat xaa 256))) 0 (repeat xbb 256)
      (Z.of_nat (length (repeat xbb 256))) = Done (r, hw2, c2) /\
    flash_ifx_write Off32 2 cfg_demo mem_demo 0 0
      (repeat xaa 256 ++ repeat xbb 256)
      (Z.of_nat (length (repeat xaa 256)) + Z.of_nat (length (repeat xbb 256))) =
    Done (r, hw2, [(0x1000, repeat xaa 256)] ++ c2).
Proof.
  apply (write_in_two_parts Off32 2 cfg_demo mem_demo 0 0 0 0
           (repeat xaa 256) (repeat xbb 256)
           (store_row mem_demo 0x1000 (repeat xaa 256))
           [(0x1000, repeat xaa 256)] cfg_demo_ok).
  - apply off_range_small. lia.
  - apply off_range_small. rewrite repeat_length. lia.
  - rewrite repeat_length. lia.
  - rewrite repeat_length. lia.
  - reflexivity.
  - unfold request_ok. rewrite !repeat_length. cbn. lia.
  - rewrite !repeat_length. cbn. lia.
  - reflexivity.
Defined.

(** X12, at the first row of the region. *)
Lemma erase_before_write_redundant_witness :
  fp_no_explicit_erase (flash_ifx_get_parameters cfg_demo) = true /\
  exists hw_e calls_e hw_ew hw_w calls_w,
    flash_ifx_erase Off32 1 cfg_demo mem_demo 0 256 = Done (0, hw_e, calls_e) /\
    flash_ifx_write Off32 1 cfg_demo hw_e 0 0 (repeat xaa 256) 256 =
    Done (0, hw_ew, calls_w) /\
    flash_ifx_write Off32 1 cfg_demo mem_demo 0 0 (repeat xaa 256) 256 =
    Done (0, hw_w, calls_w) /\
    forall x, flash_byte hw_ew x = flash_byte hw_w x.
Proof.
  apply (erase_before_write_redundant Off32 1 cfg_demo mem_demo 0 0
           (repeat xaa 256) 256 cfg_demo_ok Simulator_faithful
           (off_range_small Off32 0 ltac:(lia)));
    rewrite ?repeat_length; try (unfold request_ok); cbn; lia.
Defined.

(** X13, at bytes 3 to 8 of a written row. *)
Lemma write_then_read_part_witness :
  exists hw' calls,
    flash_ifx_write Off32 1 cfg_demo mem_demo 256 0
      (repeat xaa 3 ++ repeat xbb 253) 256 = Done (0, hw', calls) /\
    flash_ifx_read Off32 cfg_demo hw' (256 + 3) (repeat x00 5) 5 =
    Done (0, firstn (Z.to_nat 5)
               (skipn (Z.to_nat 3) (repeat xaa 3 ++ repeat xbb 253))).
Proof.
  apply (write_then_read_part Off32 1 cfg_demo mem_demo 256 0
           (repeat xaa 3 ++ repeat xbb 253) 256 3 5 (repeat x00 5)
           cfg_demo_ok Simulator_faithful
           (off_range_small Off32 256 ltac:(lia)));
    rewrite ?length_app, ?repeat_length; try (apply off_range_small);
    try (unfold request_ok); cbn; lia.
Defined.
